(** * AI Note Taker popup: a shallow embedding of [popup.js]

    The popup keeps a module-level array [notes] and an index
    [currentNoteIndex], talks to two external services (the built-in AI
    namespace [window.ai] and [chrome.storage.local]) and mirrors its state
    into a handful of DOM elements.

    Modelling decisions.
    - A JavaScript string is its sequence of UTF-16 code units ([list N]).
    - A JavaScript array indexed by a closure-captured [forEach] index is a
      [list] with stdpp's lookup [!!], insert [<[i:=x]>] and the local
      [splice]; reading an absent element gives [undefined] and the
      property access on it throws, which is written out.
    - The module state, the DOM elements the script touches and the content
      of the storage key form the [World]; every function of the script is
      a [Prog], a state-passing computation that either completes normally
      or throws, and that reports the external calls it made.
    - Everything the script cannot decide by itself (what [window.ai]
      answers, the clock, whether storage rejects) is an [Env] given to the
      handler.  An [await] is a sequential call: a handler runs to its end
      before the next event is handled. *)

From Stdlib Require Import ZArith NArith String Ascii Bool Lia.
From stdpp Require Import base option list.

Local Open Scope Z_scope.
Local Open Scope nat_scope.

(* ===================================================================== *)
(** ** JavaScript strings *)
(* ===================================================================== *)

Definition jsstring : Type := list N.

(** A string literal of the source, as code units. *)
Fixpoint lit (s : string) : jsstring :=
  match s with
  | EmptyString => []
  | String a s' => N_of_ascii a :: lit s'
  end.
Arguments lit s%_string.

(** The double-quote character, for the HTML attribute in [showError]. *)
Definition dquote : jsstring := [34%N].
(** Line feed, for the [\n] escapes of the reflection prompt. *)
Definition LF : jsstring := [10%N].

(** ECMAScript WhiteSpace and LineTerminator code points, all in the BMP:
    what [String.prototype.trim] strips. *)
Definition isWhiteSpace (c : N) : bool :=
  ((9 <=? c) && (c <=? 13) || (c =? 32) || (c =? 160) || (c =? 5760)
   || (8192 <=? c) && (c <=? 8202) || (c =? 8232) || (c =? 8233)
   || (c =? 8239) || (c =? 8287) || (c =? 12288) || (c =? 65279))%N.

Fixpoint trimStart (s : jsstring) : jsstring :=
  match s with
  | [] => []
  | c :: s' => if isWhiteSpace c then trimStart s' else s
  end.

Definition trimEnd (s : jsstring) : jsstring := rev (trimStart (rev s)).

Definition trim (s : jsstring) : jsstring := trimEnd (trimStart s).

Definition jsstring_eqb (a b : jsstring) : bool := bool_decide (a = b).

(* ===================================================================== *)
(** ** Data model *)
(* ===================================================================== *)

(** [{ title, content }] *)
Record NoteSection : Type := mkSection {
  title : jsstring;
  content : jsstring
}.

(** [{ id: Date.now(), timestamp: new Date().toISOString(), sections }] *)
Record Note : Type := mkNote {
  id : Z;
  timestamp : jsstring;
  sections : list NoteSection
}.

(** A thrown value; the script only ever reads its [message]. *)
Record JsError : Type := mkError {
  message : jsstring
}.

(** How an evaluation ends. *)
Inductive Completion (A : Type) : Type :=
| Normal (a : A)
| Throw (e : JsError).
Arguments Normal {A} a.
Arguments Throw {A} e.

(** [Array.prototype.splice(start, deleteCount)] for a non-negative integer
    [start], as to the array it leaves behind: [start] and the count are
    clamped to the length. *)
Definition splice {A} (start deleteCount : nat) (l : list A) : list A :=
  take start l ++ drop (start + deleteCount) l.

(* ===================================================================== *)
(** ** The AI namespace, as the script consumes it *)
(* ===================================================================== *)

(** The object [capabilities()] resolves to.  Only [available === 'no'] is
    ever tested, so a value that is not a string stands for any string
    other than ['no']. *)
Record Capabilities : Type := mkCapabilities {
  available : jsstring
}.

Record SummarizerConfig : Type := mkSummarizerConfig {
  cfg_type : jsstring;
  cfg_format : jsstring;
  cfg_length : jsstring
}.

Record SessionConfig : Type := mkSessionConfig {
  systemPrompt : jsstring
}.

Record Summarizer : Type := mkSummarizer {
  summarize : jsstring -> Completion jsstring;
  summarizer_destroy : Completion unit
}.

Record Session : Type := mkSession {
  prompt : jsstring -> Completion jsstring;
  session_destroy : Completion unit
}.

(** [window.ai.summarizer]; [capabilities()] may resolve to [undefined]. *)
Record SummarizerFactory : Type := mkSummarizerFactory {
  summarizer_capabilities : Completion (option Capabilities);
  summarizer_create : SummarizerConfig -> Completion Summarizer
}.

(** [window.ai.languageModel] *)
Record LanguageModelFactory : Type := mkLanguageModelFactory {
  languageModel_capabilities : Completion (option Capabilities);
  languageModel_create : SessionConfig -> Completion Session
}.

(** [window.ai]; a missing property is [None]. *)
Record Ai : Type := mkAi {
  summarizer : option SummarizerFactory;
  languageModel : option LanguageModelFactory
}.

(** What the outside world answers while one handler runs. *)
Record Env : Type := mkEnv {
  window_ai : option Ai;
  Date_now : Z;
  Date_toISOString : jsstring;
  (** [Some e]: [chrome.storage.local.set] rejects with [e] and stores
      nothing. *)
  storage_set_error : option JsError;
  (** [Some e]: [chrome.storage.local.get] rejects with [e]. *)
  storage_get_error : option JsError
}.

(** External calls and console output, in the order they happen. *)
Inductive Event : Type :=
| SummarizerCapabilities
| LanguageModelCapabilities
| SummarizerCreate (cfg : SummarizerConfig)
| Summarize (text : jsstring)
| LanguageModelCreate (cfg : SessionConfig)
| Prompt (text : jsstring)
| SummarizerDestroy
| SessionDestroy
| StorageSet (ns : list Note)
| StorageGet
| ConsoleError (label : jsstring) (e : JsError).

(* ===================================================================== *)
(** ** The DOM elements of the popup *)
(* ===================================================================== *)

(** A [button.tab] built by [renderNotes]. *)
Record Tab : Type := mkTab {
  tab_active : bool;
  tab_noteIndex : nat;
  tab_sectionIndex : nat;
  tab_title : jsstring
}.

(** A [div.note-section] built by [renderNotes]. *)
Record Pane : Type := mkPane {
  pane_active : bool;
  pane_noteIndex : nat;
  pane_sectionIndex : nat;
  pane_heading : jsstring;
  pane_content : jsstring
}.

Record Dom : Type := mkDom {
  initialView : jsstring;      (* initialView.style.display *)
  notesView : jsstring;        (* notesView.style.display *)
  loadingView : jsstring;      (* loadingView.style.display *)
  inputText : jsstring;        (* inputText.value *)
  errorMsg : jsstring;         (* errorMsg.innerHTML *)
  tabsContainer : list Tab;
  contentContainer : list Pane
}.

Record World : Type := mkWorld {
  notes : list Note;
  currentNoteIndex : Z;
  dom : Dom;
  (** the value under the key ['notes'] of [chrome.storage.local] *)
  storage : option (list Note)
}.

(* ===================================================================== *)
(** ** Programs: state, exceptions and a log of external calls *)
(* ===================================================================== *)

Definition Prog (A : Type) : Type := World -> Completion A * World * list Event.

Definition ret {A} (a : A) : Prog A := fun w => (Normal a, w, []).

Definition bind {A B} (m : Prog A) (k : A -> Prog B) : Prog B :=
  fun w =>
    match m w with
    | (Normal a, w1, ev1) =>
        match k a w1 with
        | (r, w2, ev2) => (r, w2, ev1 ++ ev2)
        end
    | (Throw e, w1, ev1) => (Throw e, w1, ev1)
    end.

(** stdpp's monad notations [x ← m; k] and [m;; k] for [Prog]. *)
#[global] Instance Prog_ret : MRet Prog := @ret.
#[global] Instance Prog_bind : MBind Prog := fun A B k m => bind m k.

Definition throw {A} (e : JsError) : Prog A := fun w => (Throw e, w, []).

(** [try { m } catch (error) { h error }] *)
Definition try_catch {A} (m : Prog A) (h : JsError -> Prog A) : Prog A :=
  fun w =>
    match m w with
    | (Normal a, w1, ev1) => (Normal a, w1, ev1)
    | (Throw e, w1, ev1) =>
        match h e w1 with
        | (r, w2, ev2) => (r, w2, ev1 ++ ev2)
        end
    end.

Definition emit (ev : Event) : Prog unit := fun w => (Normal tt, w, [ev]).

Definition gets {A} (f : World -> A) : Prog A := fun w => (Normal (f w), w, []).

Definition modify (f : World -> World) : Prog unit := fun w => (Normal tt, f w, []).

(** Awaiting an external call: the call is logged, its completion is the
    program's. *)
Definition call {A} (ev : Event) (c : Completion A) : Prog A :=
  fun w => (c, w, [ev]).

Definition outcome {A} (r : Completion A * World * list Event) : Completion A :=
  fst (fst r).
Definition world_of {A} (r : Completion A * World * list Event) : World :=
  snd (fst r).
Definition events_of {A} (r : Completion A * World * list Event) : list Event :=
  snd r.

(** Field updates. *)
Definition set_notes (ns : list Note) (w : World) : World :=
  mkWorld ns (currentNoteIndex w) (dom w) (storage w).
Definition set_currentNoteIndex (i : Z) (w : World) : World :=
  mkWorld (notes w) i (dom w) (storage w).
Definition set_dom (d : Dom) (w : World) : World :=
  mkWorld (notes w) (currentNoteIndex w) d (storage w).
Definition set_storage (s : option (list Note)) (w : World) : World :=
  mkWorld (notes w) (currentNoteIndex w) (dom w) s.
Definition modify_dom (f : Dom -> Dom) : Prog unit :=
  modify (fun w => set_dom (f (dom w)) w).

(* ===================================================================== *)
(** ** View functions (popup.js 210-237) *)
(* ===================================================================== *)

Definition showInitialView : Prog unit :=
  modify_dom (fun d =>
    mkDom (lit "flex") (lit "none") (lit "none") [] []
          (tabsContainer d) (contentContainer d)).

Definition showNotesView : Prog unit :=
  modify_dom (fun d =>
    mkDom (lit "none") (lit "flex") (lit "none") (inputText d) (errorMsg d)
          (tabsContainer d) (contentContainer d)).

Definition showLoading : Prog unit :=
  modify_dom (fun d =>
    mkDom (lit "none") (lit "none") (lit "block") (inputText d) (errorMsg d)
          (tabsContainer d) (contentContainer d)).

Definition hideLoading : Prog unit :=
  modify_dom (fun d =>
    mkDom (lit "flex") (notesView d) (lit "none") (inputText d) (errorMsg d)
          (tabsContainer d) (contentContainer d)).

(** [`<div class="error">${message}</div>`] *)
Definition error_html (msg : jsstring) : jsstring :=
  lit "<div class=" ++ dquote ++ lit "error" ++ dquote ++ lit ">"
  ++ msg ++ lit "</div>".

(** [errorMsg.innerHTML = ...]: the field holds the string that is
    assigned, with the message interpolated as it is, not escaped; the
    browser parses that string as HTML. *)
Definition showError (msg : jsstring) : Prog unit :=
  modify_dom (fun d =>
    mkDom (initialView d) (notesView d) (loadingView d) (inputText d)
          (error_html msg) (tabsContainer d) (contentContainer d)).

Definition set_inputText (v : jsstring) : Prog unit :=
  modify_dom (fun d =>
    mkDom (initialView d) (notesView d) (loadingView d) v
          (errorMsg d) (tabsContainer d) (contentContainer d)).

Definition set_tabsContainer (ts : list Tab) : Prog unit :=
  modify_dom (fun d =>
    mkDom (initialView d) (notesView d) (loadingView d) (inputText d)
          (errorMsg d) ts (contentContainer d)).

Definition set_contentContainer (ps : list Pane) : Prog unit :=
  modify_dom (fun d =>
    mkDom (initialView d) (notesView d) (loadingView d) (inputText d)
          (errorMsg d) (tabsContainer d) ps).

(* ===================================================================== *)
(** ** Storage functions (popup.js 240-261) *)
(* ===================================================================== *)

(** [chrome.storage.local.set({ notes: notes })]: the array is serialized
    when the call is made. *)
Definition storage_local_set (env : Env) (ns : list Note) : Prog unit :=
  emit (StorageSet ns);;
  match storage_set_error env with
  | Some e => throw e
  | None => modify (set_storage (Some ns))
  end.

(** [chrome.storage.local.get(['notes'])], projected on [result.notes]. *)
Definition storage_local_get (env : Env) : Prog (option (list Note)) :=
  emit StorageGet;;
  match storage_get_error env with
  | Some e => throw e
  | None => gets storage
  end.

Definition saveNotes (env : Env) : Prog unit :=
  try_catch
    (ns ← gets notes;
     storage_local_set env ns)
    (fun error => emit (ConsoleError (lit "Error saving notes:") error)).

(* ===================================================================== *)
(** ** renderNotes and switchTab (popup.js 110-195) *)
(* ===================================================================== *)

(** The [active] class test of both the tab and its content section. *)
Definition is_active (cur : Z) (noteIndex sectionIndex : nat) : bool :=
  (Z.of_nat noteIndex =? cur)%Z && (sectionIndex =? 0).

Definition render_tabs (ns : list Note) (cur : Z) : list Tab :=
  concat (imap (fun noteIndex note =>
    imap (fun sectionIndex section =>
      mkTab (is_active cur noteIndex sectionIndex) noteIndex sectionIndex
            (title section))
      (sections note)) ns).

Definition render_panes (ns : list Note) (cur : Z) : list Pane :=
  concat (imap (fun noteIndex note =>
    imap (fun sectionIndex section =>
      mkPane (is_active cur noteIndex sectionIndex) noteIndex sectionIndex
             (title section) (content section))
      (sections note)) ns).

Definition renderNotes : Prog unit :=
  ns ← gets notes;
  if length ns =? 0 then showInitialView
  else
    cur ← gets currentNoteIndex;
    set_tabsContainer (render_tabs ns cur);;
    set_contentContainer (render_panes ns cur).

Definition tab_deactivate (t : Tab) : Tab :=
  mkTab false (tab_noteIndex t) (tab_sectionIndex t) (tab_title t).

Definition pane_deactivate (p : Pane) : Pane :=
  mkPane false (pane_noteIndex p) (pane_sectionIndex p) (pane_heading p)
         (pane_content p).

(** [document.querySelector(...)] takes the first match;
    [.classList.add('active')] on it.  [None] when nothing matches. *)
Fixpoint tab_activate (noteIndex sectionIndex : nat) (ts : list Tab)
  : option (list Tab) :=
  match ts with
  | [] => None
  | t :: ts' =>
      if (tab_noteIndex t =? noteIndex) && (tab_sectionIndex t =? sectionIndex)
      then Some (mkTab true (tab_noteIndex t) (tab_sectionIndex t) (tab_title t)
                 :: ts')
      else option_map (cons t) (tab_activate noteIndex sectionIndex ts')
  end.

Fixpoint pane_activate (noteIndex sectionIndex : nat) (ps : list Pane)
  : option (list Pane) :=
  match ps with
  | [] => None
  | p :: ps' =>
      if (pane_noteIndex p =? noteIndex) && (pane_sectionIndex p =? sectionIndex)
      then Some (mkPane true (pane_noteIndex p) (pane_sectionIndex p)
                        (pane_heading p) (pane_content p) :: ps')
      else option_map (cons p) (pane_activate noteIndex sectionIndex ps')
  end.

Definition TypeError_null_classList : JsError :=
  mkError (lit "Cannot read properties of null (reading 'classList')").

Definition switchTab (noteIndex sectionIndex : nat) : Prog unit :=
  ts ← gets (fun w => tabsContainer (dom w));
  set_tabsContainer (map tab_deactivate ts);;
  match tab_activate noteIndex sectionIndex (map tab_deactivate ts) with
  | None => throw TypeError_null_classList
  | Some ts' => set_tabsContainer ts'
  end;;
  ps ← gets (fun w => contentContainer (dom w));
  set_contentContainer (map pane_deactivate ps);;
  match pane_activate noteIndex sectionIndex (map pane_deactivate ps) with
  | None => throw TypeError_null_classList
  | Some ps' => set_contentContainer ps'
  end;;
  modify (set_currentNoteIndex (Z.of_nat noteIndex)).

Definition loadNotes (env : Env) : Prog unit :=
  try_catch
    (result_notes ← storage_local_get env;
     match result_notes with
     | Some ns =>
         modify (set_notes ns);;
         renderNotes;;
         if 0 <? length ns then showNotesView else ret tt
     | None => ret tt
     end)
    (fun error => emit (ConsoleError (lit "Error loading notes:") error)).

(* ===================================================================== *)
(** ** deleteSection and the title editor (popup.js 197-208, 132-135) *)
(* ===================================================================== *)

Definition TypeError_undefined_reading (prop : jsstring) : JsError :=
  mkError (lit "Cannot read properties of undefined (reading '" ++ prop
           ++ lit "')").

Definition TypeError_undefined_setting (prop : jsstring) : JsError :=
  mkError (lit "Cannot set properties of undefined (setting '" ++ prop
           ++ lit "')").

Definition with_sections (n : Note) (ss : list NoteSection) : Note :=
  mkNote (id n) (timestamp n) ss.

Definition deleteSection (env : Env) (noteIndex sectionIndex : nat)
  : Prog unit :=
  ns ← gets notes;
  match ns !! noteIndex with
  | None => throw (TypeError_undefined_reading (lit "sections"))
  | Some note =>
      (if length (sections note) =? 1 then
         (* Delete entire note if it's the last section *)
         modify (set_notes (splice noteIndex 1 ns))
       else
         (* Delete just the section *)
         modify (set_notes
           (<[noteIndex := with_sections note
                             (splice sectionIndex 1 (sections note))]> ns)));;
      saveNotes env;;
      renderNotes
  end.

(** The [blur] listener of a tab title:
    [notes[noteIndex].sections[sectionIndex].title = e.target.textContent;
     saveNotes();] *)
Definition titleSpan_blur (env : Env) (noteIndex sectionIndex : nat)
    (textContent : jsstring) : Prog unit :=
  ns ← gets notes;
  match ns !! noteIndex with
  | None => throw (TypeError_undefined_reading (lit "sections"))
  | Some note =>
      match sections note !! sectionIndex with
      | None => throw (TypeError_undefined_setting (lit "title"))
      | Some section =>
          modify (set_notes
            (<[noteIndex := with_sections note
                 (<[sectionIndex := mkSection textContent (content section)]>
                    (sections note))]> ns));;
          saveNotes env
      end
  end.

(* ===================================================================== *)
(** ** generateNotes (popup.js 32-108) *)
(* ===================================================================== *)

(** [await window.ai?.summarizer?.capabilities()] *)
Definition query_summarizer (env : Env) : Prog (option Capabilities) :=
  match window_ai env with
  | None => ret None
  | Some ai =>
      match summarizer ai with
      | None => ret None
      | Some f => call SummarizerCapabilities (summarizer_capabilities f)
      end
  end.

(** [await window.ai?.languageModel?.capabilities()] *)
Definition query_languageModel (env : Env) : Prog (option Capabilities) :=
  match window_ai env with
  | None => ret None
  | Some ai =>
      match languageModel ai with
      | None => ret None
      | Some f => call LanguageModelCapabilities (languageModel_capabilities f)
      end
  end.

(** [c?.available === 'no'] *)
Definition reports_no (c : option Capabilities) : bool :=
  match c with
  | Some c => jsstring_eqb (available c) (lit "no")
  | None => false
  end.

Definition unavailable_message : jsstring :=
  lit "Chrome Built-in AI APIs are not available. Make sure you have Chrome 127+ with AI features enabled.".

Definition summarizer_config : SummarizerConfig :=
  mkSummarizerConfig (lit "key-points") (lit "markdown") (lit "medium").

Definition session_config : SessionConfig :=
  mkSessionConfig (lit "You are a thoughtful note-taking assistant. Generate brief, insightful reflections on notes.").

(** [window.ai.summarizer.create({...})] *)
Definition create_summarizer (env : Env) : Prog Summarizer :=
  match window_ai env with
  | None => throw (TypeError_undefined_reading (lit "summarizer"))
  | Some ai =>
      match summarizer ai with
      | None => throw (TypeError_undefined_reading (lit "create"))
      | Some f =>
          call (SummarizerCreate summarizer_config)
               (summarizer_create f summarizer_config)
      end
  end.

(** [window.ai.languageModel.create({...})] *)
Definition create_session (env : Env) : Prog Session :=
  match window_ai env with
  | None => throw (TypeError_undefined_reading (lit "languageModel"))
  | Some ai =>
      match languageModel ai with
      | None => throw (TypeError_undefined_reading (lit "create"))
      | Some f =>
          call (LanguageModelCreate session_config)
               (languageModel_create f session_config)
      end
  end.

Definition reflectionPrompt (summary : jsstring) : jsstring :=
  lit "Based on these notes:" ++ LF ++ LF ++ summary ++ LF ++ LF
  ++ lit "Write a brief reflection (2-3 sentences) about the key insights and their significance.".

Definition noteData (env : Env) (summary reflection text : jsstring) : Note :=
  mkNote (Date_now env) (Date_toISOString env)
    [ mkSection (lit "Summary") summary;
      mkSection (lit "Reflection") reflection;
      mkSection (lit "Original Text") text ].

(** The body of the [try] block. *)
Definition generateNotes_try (env : Env) (text : jsstring) : Prog unit :=
  showLoading;;
  (* Check API availability *)
  canSummarize ← query_summarizer env;
  canUseLanguageModel ← query_languageModel env;
  (if reports_no canSummarize || reports_no canUseLanguageModel
   then throw (mkError unavailable_message)
   else ret tt);;
  summarizer ← create_summarizer env;
  summary ← call (Summarize text) (summarize summarizer text);
  session ← create_session env;
  reflection ← call (Prompt (reflectionPrompt summary))
                    (prompt session (reflectionPrompt summary));
  (* Save and display *)
  modify (fun w => set_notes (notes w ++ [noteData env summary reflection text]) w);;
  saveNotes env;;
  modify (fun w => set_currentNoteIndex (Z.of_nat (length (notes w)) - 1)%Z w);;
  (* Cleanup *)
  call SummarizerDestroy (summarizer_destroy summarizer);;
  call SessionDestroy (session_destroy session);;
  renderNotes;;
  showNotesView;;
  set_inputText [].

(** The [catch] clause. *)
Definition generateNotes_catch (error : JsError) : Prog unit :=
  emit (ConsoleError (lit "Error generating notes:") error);;
  hideLoading;;
  showError (lit "Error: " ++ message error).

Definition validation_message : jsstring :=
  lit "Please paste some text to generate notes.".

Definition generateNotes (env : Env) : Prog unit :=
  text ← gets (fun w => trim (inputText (dom w)));
  match text with
  | [] => showError validation_message
  | _ :: _ => try_catch (generateNotes_try env text) generateNotes_catch
  end.

(* ===================================================================== *)
(** ** Event listeners (popup.js 18-30) and the popup as a transition system *)
(* ===================================================================== *)

(** What can happen to an open popup.  [UserTypes] is the browser putting
    the user's text into the textarea; the others run a listener of the
    script. *)
Inductive PopupEvent : Type :=
| DOMContentLoaded
| UserTypes (value : jsstring)
| GenerateClick
| ClearClick
| NewNoteClick
| TitleBlur (noteIndex sectionIndex : nat) (textContent : jsstring)
| DeleteClick (noteIndex sectionIndex : nat)
| TabClick (noteIndex sectionIndex : nat).

Definition clearBtn_click : Prog unit :=
  modify_dom (fun d =>
    mkDom (initialView d) (notesView d) (loadingView d) [] []
          (tabsContainer d) (contentContainer d)).

Definition listener (env : Env) (ev : PopupEvent) : Prog unit :=
  match ev with
  | DOMContentLoaded => loadNotes env
  | UserTypes value => set_inputText value
  | GenerateClick => generateNotes env
  | ClearClick => clearBtn_click
  | NewNoteClick => showInitialView
  | TitleBlur noteIndex sectionIndex textContent =>
      titleSpan_blur env noteIndex sectionIndex textContent
  | DeleteClick noteIndex sectionIndex =>
      deleteSection env noteIndex sectionIndex
  | TabClick noteIndex sectionIndex => switchTab noteIndex sectionIndex
  end.

(** A listener that throws is abandoned where it threw. *)
Definition step (env : Env) (ev : PopupEvent) (w : World) : World :=
  world_of (listener env ev w).

(** The script's top-level state over a freshly parsed document, with what
    an earlier popup left in storage. *)
Definition fresh_popup (popup_html : Dom) (stored : option (list Note)) : World :=
  mkWorld [] 0%Z popup_html stored.

Section Reachability.

(** The document of popup.html before any script ran. *)
Variable popup_html : Dom.

(** The worlds the extension can be in, starting from its installation
    (nothing stored).  Closing and reopening the popup restarts the
    script over the same storage. *)
Inductive reachable : World -> Prop :=
| reachable_install : reachable (fresh_popup popup_html None)
| reachable_step env ev w :
    reachable w -> reachable (step env ev w)
| reachable_reopen w :
    reachable w -> reachable (fresh_popup popup_html (storage w)).

End Reachability.

(* ===================================================================== *)
(** * Vocabulary of the statements *)
(* ===================================================================== *)

(** [wp m Q w]: running [m] from [w] ends in a completion, a world and a
    log that satisfy [Q]. *)
Definition wp {A} (m : Prog A)
    (Q : Completion A -> World -> list Event -> Prop) (w : World) : Prop :=
  Q (outcome (m w)) (world_of (m w)) (events_of (m w)).

(** A program that only repaints: it completes, calls nothing and changes
    nothing but the DOM. *)
Definition dom_only (m : Prog unit) : Prop :=
  forall w, exists d, m w = (Normal tt, set_dom d w, []).

(** The result of a continuation, with the events logged before it. *)
Definition log_before {A} (e1 : list Event)
    (r : Completion A * World * list Event) : Completion A * World * list Event :=
  (outcome r, world_of r, e1 ++ events_of r).

(** The array [deleteSection] leaves behind when [notes[noteIndex]] is
    [note]. *)
Definition notes_after_delete (ns : list Note) (note : Note)
    (noteIndex sectionIndex : nat) : list Note :=
  if length (sections note) =? 1 then splice noteIndex 1 ns
  else <[noteIndex := with_sections note
                        (splice sectionIndex 1 (sections note))]> ns.

(** The note has at least one section. *)
Definition has_section (n : Note) : Prop := 1 <= length (sections n).

(** The invariant, on the array in memory and on its stored copy. *)
Definition store_ok (w : World) : Prop :=
  Forall has_section (notes w)
  /\ forall ns, storage w = Some ns -> Forall has_section ns.

(** The [try] block of [generateNotes] ran to its end on the text of the
    textarea. *)
Definition generation_succeeds (env : Env) (w : World) : Prop :=
  trim (inputText (dom w)) <> []
  /\ outcome (generateNotes_try env (trim (inputText (dom w))) w) = Normal tt.

(** The external operations, without their arguments. *)
Inductive Operation : Type :=
| OpSummarizerCapabilities
| OpLanguageModelCapabilities
| OpSummarizerCreate
| OpSummarize
| OpLanguageModelCreate
| OpPrompt
| OpSummarizerDestroy
| OpSessionDestroy
| OpStorageSet
| OpStorageGet.

#[global] Instance Operation_eq_dec : EqDecision Operation.
Proof. solve_decision. Defined.

(** The operation an event is a call of; console output is none. *)
Definition operation (ev : Event) : option Operation :=
  match ev with
  | SummarizerCapabilities => Some OpSummarizerCapabilities
  | LanguageModelCapabilities => Some OpLanguageModelCapabilities
  | SummarizerCreate _ => Some OpSummarizerCreate
  | Summarize _ => Some OpSummarize
  | LanguageModelCreate _ => Some OpLanguageModelCreate
  | Prompt _ => Some OpPrompt
  | SummarizerDestroy => Some OpSummarizerDestroy
  | SessionDestroy => Some OpSessionDestroy
  | StorageSet _ => Some OpStorageSet
  | StorageGet => Some OpStorageGet
  | ConsoleError _ _ => None
  end.

(** The event asks [window.ai] for a summarizer or a session, or uses
    one. *)
Definition uses_instance (ev : Event) : bool :=
  match ev with
  | SummarizerCreate _ | Summarize _ | LanguageModelCreate _ | Prompt _
  | SummarizerDestroy | SessionDestroy => true
  | _ => false
  end.

(** The array the title editor leaves behind. *)
Definition notes_after_rename (ns : list Note) (note : Note) (section : NoteSection)
    (noteIndex sectionIndex : nat) (textContent : jsstring) : list Note :=
  <[noteIndex := with_sections note
       (<[sectionIndex := mkSection textContent (content section)]>
          (sections note))]> ns.

(** The listeners that change the note store: generation, section
    deletion, section rename. *)
Definition mutates_store (ev : PopupEvent) : bool :=
  match ev with
  | GenerateClick | DeleteClick _ _ | TitleBlur _ _ _ => true
  | _ => false
  end.

(** The same outside world, but with a storage that accepts the write. *)
Definition storage_accepts (env : Env) : Env :=
  mkEnv (window_ai env) (Date_now env) (Date_toISOString env) None
        (storage_get_error env).

(** What the user can see and the script's own state agree in two runs. *)
Definition same_popup (r r' : Completion unit * World * list Event) : Prop :=
  outcome r = outcome r'
  /\ notes (world_of r) = notes (world_of r')
  /\ currentNoteIndex (world_of r) = currentNoteIndex (world_of r')
  /\ dom (world_of r) = dom (world_of r').

(** The [data-note-index] and [data-section-index] of a tab. *)
Definition tab_index (t : Tab) : nat * nat :=
  (tab_noteIndex t, tab_sectionIndex t).

(** The [data-note-index] and [data-section-index] of a content section. *)
Definition pane_index (p : Pane) : nat * nat :=
  (pane_noteIndex p, pane_sectionIndex p).

(** The positions of the sections of a store, note by note. *)
Definition section_indices (ns : list Note) : list (nat * nat) :=
  concat (imap (fun noteIndex note =>
    imap (fun sectionIndex _ => (noteIndex, sectionIndex)) (sections note)) ns).

(** The event writes the store to storage or releases an AI instance. *)
Definition writes_or_releases (ev : Event) : bool :=
  match ev with
  | StorageSet _ | SummarizerDestroy | SessionDestroy => true
  | _ => false
  end.

(** The DOM while a generation is running: what [showLoading] makes of
    the DOM the listener found. *)
Definition loading_dom (d : Dom) : Dom :=
  mkDom (lit "none") (lit "none") (lit "block") (inputText d) (errorMsg d)
        (tabsContainer d) (contentContainer d).

(** Every code unit of the string is white space or a line terminator. *)
Definition blank (s : jsstring) : Prop :=
  Forall (fun c => isWhiteSpace c = true) s.

(** While the notes view is displayed, the tab strip and the content area
    list exactly the positions of the sections of the store, in order. *)
Definition tabs_in_sync (w : World) : Prop :=
  notesView (dom w) = lit "flex" ->
  map tab_index (tabsContainer (dom w)) = section_indices (notes w)
  /\ map pane_index (contentContainer (dom w)) = section_indices (notes w).

#[global] Instance Tab_eq_dec : EqDecision Tab.
Proof. solve_decision. Defined.

(** [notes[noteIndex].sections[sectionIndex].title], if there is such a
    section. *)
Definition title_at (ns : list Note) (noteIndex sectionIndex : nat)
  : option jsstring :=
  match ns !! noteIndex with
  | None => None
  | Some note =>
      match sections note !! sectionIndex with
      | None => None
      | Some section => Some (title section)
      end
  end.

(** The summarizer's capability query answered, with [available === 'no']. *)
Definition summarizer_reports_unavailable (env : Env) (w : World) : Prop :=
  exists c, outcome (query_summarizer env w) = Normal c /\ reports_no c = true.

(** The language model's capability query answered, with
    [available === 'no'].  It is only made once the summarizer's query has
    answered (popup.js 44-45). *)
Definition languageModel_reports_unavailable (env : Env) (w : World) : Prop :=
  (exists c, outcome (query_summarizer env w) = Normal c)
  /\ exists c, outcome (query_languageModel env w) = Normal c
               /\ reports_no c = true.

(* ===================================================================== *)
(** * Concrete inputs *)
(* ===================================================================== *)

Definition demo_summarizer : Summarizer :=
  mkSummarizer (fun text => Normal (lit "- " ++ text)) (Normal tt).

Definition demo_session : Session :=
  mkSession (fun p => Normal (lit "Worth remembering.")) (Normal tt).

Definition demo_ai (s_avail lm_avail : jsstring) : Ai :=
  mkAi
    (Some (mkSummarizerFactory (Normal (Some (mkCapabilities s_avail)))
                               (fun _ => Normal demo_summarizer)))
    (Some (mkLanguageModelFactory (Normal (Some (mkCapabilities lm_avail)))
                                  (fun _ => Normal demo_session))).

(** Everything available, storage accepts. *)
Definition demo_env : Env :=
  mkEnv (Some (demo_ai (lit "readily") (lit "readily")))
        1700000000000%Z (lit "2023-11-14T22:13:20.000Z") None None.

(** The summarizer reports that it is unavailable. *)
Definition demo_env_unavailable : Env :=
  mkEnv (Some (demo_ai (lit "no") (lit "readily")))
        1700000000000%Z (lit "2023-11-14T22:13:20.000Z") None None.

(** No [window.ai] at all. *)
Definition demo_env_no_ai : Env :=
  mkEnv None 1700000000000%Z (lit "2023-11-14T22:13:20.000Z") None None.

(** Storage rejects every write. *)
Definition demo_env_quota : Env :=
  mkEnv (Some (demo_ai (lit "readily") (lit "readily")))
        1700000000000%Z (lit "2023-11-14T22:13:20.000Z")
        (Some (mkError (lit "QUOTA_BYTES quota exceeded"))) None.

Definition demo_html : Dom := mkDom [] [] [] [] [] [] [].

Definition demo_note : Note :=
  mkNote 1700000000000%Z (lit "2023-11-14T22:13:20.000Z")
    [ mkSection (lit "Summary") (lit "- tea");
      mkSection (lit "Reflection") (lit "Worth remembering.");
      mkSection (lit "Original Text") (lit "tea") ].

Definition demo_single : Note :=
  mkNote 1700000000001%Z (lit "2023-11-14T22:13:20.001Z")
    [ mkSection (lit "Summary") (lit "- milk") ].

(** Two notes on screen, both stored. *)
Definition demo_world : World :=
  mkWorld [demo_note; demo_single] 1%Z demo_html (Some [demo_note; demo_single]).

(** A fresh popup in which the user typed [" tea "]. *)
Definition demo_typed : World :=
  step demo_env (UserTypes (lit " tea ")) (fresh_popup demo_html None).

(** Two notes on screen, and only blanks (space, line feed, no-break
    space) in the textarea. *)
Definition demo_blank : World :=
  step demo_env (UserTypes (lit " " ++ LF ++ [160%N])) demo_world.

(** Two notes in the store and new text typed. *)
Definition demo_blank_then_typed : World :=
  step demo_env (UserTypes (lit "milk and honey")) demo_blank.

(** A world reached through the listeners alone: a note is generated from
    the typed text, then two of its sections are deleted, which leaves a
    note with a single section. *)
Definition demo_reached : World :=
  step demo_env (DeleteClick 0 0)
    (step demo_env (DeleteClick 0 0)
       (step demo_env GenerateClick demo_typed)).

(** The popup after its first generation: one note, three tabs. *)
Definition demo_generated : World := step demo_env GenerateClick demo_typed.

(** A summarizer whose [destroy()] throws. *)
Definition demo_env_destroy_fails : Env :=
  mkEnv
    (Some (mkAi
       (Some (mkSummarizerFactory
                (Normal (Some (mkCapabilities (lit "readily"))))
                (fun _ => Normal
                   (mkSummarizer (fun text => Normal (lit "- " ++ text))
                                 (Throw (mkError (lit "destroy failed")))))))
       (Some (mkLanguageModelFactory
                (Normal (Some (mkCapabilities (lit "readily"))))
                (fun _ => Normal demo_session)))))
    1700000000000%Z (lit "2023-11-14T22:13:20.000Z") None None.

(** A summarizer that is created but whose [summarize()] throws. *)
Definition demo_env_summarize_fails : Env :=
  mkEnv
    (Some (mkAi
       (Some (mkSummarizerFactory
                (Normal (Some (mkCapabilities (lit "readily"))))
                (fun _ => Normal
                   (mkSummarizer (fun text => Throw (mkError (lit "model crashed")))
                                 (Normal tt)))))
       (Some (mkLanguageModelFactory
                (Normal (Some (mkCapabilities (lit "readily"))))
                (fun _ => Normal demo_session)))))
    1700000000000%Z (lit "2023-11-14T22:13:20.000Z") None None.

(** The summarizer reports that it is unavailable and the language
    model's capability query rejects. *)
Definition demo_env_lm_query_throws : Env :=
  mkEnv
    (Some (mkAi
       (Some (mkSummarizerFactory
                (Normal (Some (mkCapabilities (lit "no"))))
                (fun _ => Normal demo_summarizer)))
       (Some (mkLanguageModelFactory
                (Throw (mkError (lit "boom")))
                (fun _ => Normal demo_session)))))
    1700000000000%Z (lit "2023-11-14T22:13:20.000Z") None None.

(** A summarizer whose [summarize()] rejects with a message that holds
    markup. *)
Definition demo_env_markup_error : Env :=
  mkEnv
    (Some (mkAi
       (Some (mkSummarizerFactory
                (Normal (Some (mkCapabilities (lit "readily"))))
                (fun _ => Normal
                   (mkSummarizer
                      (fun text => Throw (mkError (lit "x < 1 & <b>y</b>")))
                      (Normal tt)))))
       (Some (mkLanguageModelFactory
                (Normal (Some (mkCapabilities (lit "readily"))))
                (fun _ => Normal demo_session)))))
    1700000000000%Z (lit "2023-11-14T22:13:20.000Z") None None.

(* ===================================================================== *)
(** * Reasoning about programs *)
(* ===================================================================== *)

Arguments lit : simpl never.
Arguments error_html : simpl never.

Lemma wp_bind {A B} (m : Prog A) (k : A -> Prog B) Q w :
  wp m (fun r w1 e1 =>
          match r with
          | Normal a => wp (k a) (fun r' w2 e2 => Q r' w2 (e1 ++ e2)) w1
          | Throw e => Q (Throw e) w1 e1
          end) w ->
  wp (m ≫= k) Q w.
Proof.
  unfold wp, outcome, world_of, events_of, mbind, Prog_bind, bind.
  destruct (m w) as [[[a|e] w1] e1]; simpl; [|done].
  by destruct (k a w1) as [[r w2] e2].
Qed.

Lemma wp_try_catch {A} (m : Prog A) (h : JsError -> Prog A) Q w :
  wp m (fun r w1 e1 =>
          match r with
          | Normal a => Q (Normal a) w1 e1
          | Throw e => wp (h e) (fun r' w2 e2 => Q r' w2 (e1 ++ e2)) w1
          end) w ->
  wp (try_catch m h) Q w.
Proof.
  unfold wp, outcome, world_of, events_of, try_catch.
  destruct (m w) as [[[a|e] w1] e1]; simpl; [done|].
  by destruct (h e w1) as [[r w2] e2].
Qed.

Lemma wp_dom_only (m : Prog unit) Q w :
  dom_only m -> (forall d, Q (Normal tt) (set_dom d w) []) -> wp m Q w.
Proof. intros Hm HQ. destruct (Hm w) as [d Hd]. unfold wp. rewrite Hd. apply HQ. Qed.

Lemma renderNotes_dom_only : dom_only renderNotes.
Proof.
  intros w. unfold renderNotes, mbind, Prog_bind, bind, gets; simpl.
  destruct (length (notes w) =? 0); eexists; reflexivity.
Qed.

(** What [saveNotes] does, by whether storage rejects. *)
Lemma saveNotes_ok env w :
  storage_set_error env = None ->
  saveNotes env w
  = (Normal tt, set_storage (Some (notes w)) w, [StorageSet (notes w)]).
Proof.
  intros H. unfold saveNotes, try_catch, storage_local_set, mbind, Prog_bind, bind.
  simpl. by rewrite H.
Qed.

Lemma saveNotes_rejected env w e :
  storage_set_error env = Some e ->
  saveNotes env w
  = (Normal tt, w,
     [StorageSet (notes w); ConsoleError (lit "Error saving notes:") e]).
Proof.
  intros H. unfold saveNotes, try_catch, storage_local_set, mbind, Prog_bind, bind.
  simpl. by rewrite H.
Qed.

Lemma splice_delete {A} (i : nat) (l : list A) : splice i 1 l = delete i l.
Proof. unfold splice. rewrite delete_take_drop. by rewrite Nat.add_1_r. Qed.

Lemma bind_Normal {A B} (m : Prog A) (k : A -> Prog B) w a w1 e1 :
  m w = (Normal a, w1, e1) ->
  (m ≫= k) w = log_before e1 (k a w1).
Proof.
  intros Hm. unfold mbind, Prog_bind, bind, log_before. rewrite Hm.
  by destruct (k a w1) as [[r w2] e2].
Qed.

Lemma deleteSection_found env w noteIndex sectionIndex note :
  notes w !! noteIndex = Some note ->
  let ns' := notes_after_delete (notes w) note noteIndex sectionIndex in
  exists d st evs,
    deleteSection env noteIndex sectionIndex w
    = (Normal tt, mkWorld ns' (currentNoteIndex w) d st, StorageSet ns' :: evs)
    /\ (st = storage w \/ st = Some ns')
    /\ (evs = [] \/ exists e, storage_set_error env = Some e
                              /\ evs = [ConsoleError (lit "Error saving notes:") e]).
Proof.
  intros Hn ns'.
  set (w1 := set_notes ns' w).
  assert (Hmod : (if length (sections note) =? 1
                  then modify (set_notes (splice noteIndex 1 (notes w)))
                  else modify (set_notes
                    (<[noteIndex := with_sections note
                         (splice sectionIndex 1 (sections note))]> (notes w)))) w
                 = (Normal tt, w1, [])).
  { unfold w1, ns', notes_after_delete. by destruct (length (sections note) =? 1). }
  assert (Hsave : exists st evs, saveNotes env w1
            = (Normal tt, set_storage st w1, StorageSet ns' :: evs)
            /\ (st = storage w \/ st = Some ns')
            /\ (evs = [] \/ exists e, storage_set_error env = Some e
                  /\ evs = [ConsoleError (lit "Error saving notes:") e])).
  { destruct (storage_set_error env) as [e|] eqn:He.
    - exists (storage w), [ConsoleError (lit "Error saving notes:") e].
      rewrite (saveNotes_rejected env w1 e He). repeat split; eauto.
    - exists (Some ns'), []. rewrite (saveNotes_ok env w1 He). repeat split; eauto. }
  destruct Hsave as (st & evs & Hsave & Hst & Hevs).
  destruct (renderNotes_dom_only (set_storage st w1)) as [d Hd].
  exists d, st, evs. split; [|done].
  unfold deleteSection.
  erewrite bind_Normal by reflexivity. rewrite Hn.
  rewrite (bind_Normal _ _ _ _ _ _ Hmod).
  rewrite (bind_Normal _ _ _ _ _ _ Hsave).
  rewrite Hd. unfold log_before; simpl. by rewrite app_nil_r.
Qed.

Lemma deleteSection_missing env w noteIndex sectionIndex :
  notes w !! noteIndex = None ->
  deleteSection env noteIndex sectionIndex w
  = (Throw (TypeError_undefined_reading (lit "sections")), w, []).
Proof.
  intros Hn. unfold deleteSection, mbind, Prog_bind, bind, gets. simpl.
  by rewrite Hn.
Qed.

(* ===================================================================== *)
(** * deleteSection *)
(* ===================================================================== *)

Lemma step_DeleteClick_notes env w noteIndex sectionIndex note :
  notes w !! noteIndex = Some note ->
  notes (step env (DeleteClick noteIndex sectionIndex) w)
  = notes_after_delete (notes w) note noteIndex sectionIndex.
Proof.
  intros Hn. unfold step; simpl.
  destruct (deleteSection_found env w noteIndex sectionIndex note Hn)
    as (d & st & evs & -> & _). reflexivity.
Qed.

(** C5. For a note with two or more sections and a valid [sectionIndex],
    [deleteSection] keeps the note at its place in the store, with its
    [id] and [timestamp], and removes exactly the section at
    [sectionIndex]: the sections before it stay where they were, those
    after it move down by one, in their original order. *)
Theorem deleteSection_removes_exactly_that_section
    env w noteIndex sectionIndex note :
  notes w !! noteIndex = Some note ->
  2 <= length (sections note) ->
  sectionIndex < length (sections note) ->
  let w' := step env (DeleteClick noteIndex sectionIndex) w in
  length (notes w') = length (notes w) /\
  exists note',
    notes w' !! noteIndex = Some note' /\
    id note' = id note /\
    timestamp note' = timestamp note /\
    sections note'
    = take sectionIndex (sections note) ++ drop (S sectionIndex) (sections note) /\
    S (length (sections note')) = length (sections note) /\
    (forall k, k < sectionIndex -> sections note' !! k = sections note !! k) /\
    (forall k, sectionIndex <= k -> sections note' !! k = sections note !! S k).
Proof.
  intros Hn Hlen Hj w'. subst w'.
  rewrite (step_DeleteClick_notes env w noteIndex sectionIndex note Hn).
  unfold notes_after_delete.
  destruct (Nat.eqb_spec (length (sections note)) 1) as [Heq|_]; [lia|].
  split; [apply length_insert|].
  exists (with_sections note (splice sectionIndex 1 (sections note))).
  split; [apply list_lookup_insert_eq; by eapply lookup_lt_Some|].
  simpl. rewrite splice_delete.
  repeat split.
  - apply delete_take_drop.
  - rewrite length_delete by (apply lookup_lt_is_Some; lia). lia.
  - intros k Hk. by apply list_lookup_delete_lt.
  - intros k Hk. by apply list_lookup_delete_ge.
Qed.

Lemma deleteSection_removes_exactly_that_section_witness :
  let w' := step demo_env (DeleteClick 0 1) demo_world in
  length (notes w') = 2 /\
  exists note',
    notes w' !! 0 = Some note' /\
    id note' = id demo_note /\
    timestamp note' = timestamp demo_note /\
    sections note' = take 1 (sections demo_note) ++ drop 2 (sections demo_note) /\
    S (length (sections note')) = 3 /\
    (forall k, k < 1 -> sections note' !! k = sections demo_note !! k) /\
    (forall k, 1 <= k -> sections note' !! k = sections demo_note !! S k).
Proof.
  apply (deleteSection_removes_exactly_that_section demo_env demo_world 0 1 demo_note).
  - reflexivity.
  - simpl; lia.
  - simpl; lia.
Defined.

(** C10. For a valid [noteIndex] and [sectionIndex], [deleteSection]
    leaves every other note as it was: the notes before [noteIndex] keep
    their position, and those after it keep it too unless the whole note
    was removed, in which case they move down by one, unmodified. *)
Theorem deleteSection_other_notes_unchanged
    env w noteIndex sectionIndex note :
  notes w !! noteIndex = Some note ->
  sectionIndex < length (sections note) ->
  let w' := step env (DeleteClick noteIndex sectionIndex) w in
  let whole := length (sections note) =? 1 in
  length (notes w') = (if whole then length (notes w) - 1 else length (notes w)) /\
  (forall k, k < noteIndex -> notes w' !! k = notes w !! k) /\
  (forall k, noteIndex < k ->
     notes w' !! (if whole then k - 1 else k) = notes w !! k).
Proof.
  intros Hn _ w' whole. subst w' whole.
  rewrite (step_DeleteClick_notes env w noteIndex sectionIndex note Hn).
  unfold notes_after_delete.
  destruct (length (sections note) =? 1).
  - rewrite splice_delete. repeat split.
    + rewrite length_delete by eauto. lia.
    + intros k Hk. by apply list_lookup_delete_lt.
    + intros k Hk. rewrite list_lookup_delete_ge by lia. f_equal. lia.
  - repeat split.
    + apply length_insert.
    + intros k Hk. apply list_lookup_insert_ne. lia.
    + intros k Hk. apply list_lookup_insert_ne. lia.
Qed.

Lemma deleteSection_other_notes_unchanged_witness :
  let w' := step demo_env (DeleteClick 0 1) demo_world in
  let whole := length (sections demo_note) =? 1 in
  length (notes w') = (if whole then length (notes demo_world) - 1
                       else length (notes demo_world)) /\
  (forall k, k < 0 -> notes w' !! k = notes demo_world !! k) /\
  (forall k, 0 < k ->
     notes w' !! (if whole then k - 1 else k) = notes demo_world !! k).
Proof.
  apply (deleteSection_other_notes_unchanged demo_env demo_world 0 1 demo_note).
  - reflexivity.
  - simpl; lia.
Defined.

(* ===================================================================== *)
(** * Symbolic execution *)
(* ===================================================================== *)

Lemma wp_ret {A} (a : A) Q w : Q (Normal a) w [] -> wp (mret a) Q w.
Proof. done. Qed.
Lemma wp_gets {A} (f : World -> A) Q w : Q (Normal (f w)) w [] -> wp (gets f) Q w.
Proof. done. Qed.
Lemma wp_modify f Q w : Q (Normal tt) (f w) [] -> wp (modify f) Q w.
Proof. done. Qed.
Lemma wp_modify_dom f Q w :
  Q (Normal tt) (set_dom (f (dom w)) w) [] -> wp (modify_dom f) Q w.
Proof. done. Qed.
Lemma wp_emit ev Q w : Q (Normal tt) w [ev] -> wp (emit ev) Q w.
Proof. done. Qed.
Lemma wp_throw {A} e (Q : Completion A -> _) w : Q (Throw e) w [] -> wp (throw e) Q w.
Proof. done. Qed.
Lemma wp_call {A} ev (c : Completion A) Q w : Q c w [ev] -> wp (call ev c) Q w.
Proof. done. Qed.

Lemma wp_renderNotes Q w :
  (forall d, Q (Normal tt) (set_dom d w) []) -> wp renderNotes Q w.
Proof. apply wp_dom_only, renderNotes_dom_only. Qed.

Create HintDb progs.
#[local] Hint Unfold listener loadNotes saveNotes storage_local_get storage_local_set
  deleteSection titleSpan_blur switchTab generateNotes generateNotes_try
  generateNotes_catch query_summarizer query_languageModel create_summarizer
  create_session showInitialView showNotesView showLoading hideLoading
  showError set_inputText set_tabsContainer set_contentContainer
  clearBtn_click : progs.

(** Case analysis on the scrutinee of a program, reusing what is already
    known about it. *)
Ltac wp_case x :=
  match goal with
  | H : x = _ |- _ => rewrite H
  | _ => destruct x eqn:?
  end.

(** One step of symbolic execution of the program in a [wp] goal. *)
Ltac wp_step :=
  cbv beta iota;
  lazymatch goal with
  | |- wp (_ ≫= _) _ _ => apply wp_bind
  | |- wp (try_catch _ _) _ _ => apply wp_try_catch
  | |- wp (mret _) _ _ => apply wp_ret
  | |- wp (ret _) _ _ => apply wp_ret
  | |- wp (gets _) _ _ => apply wp_gets
  | |- wp (modify_dom _) _ _ => apply wp_modify_dom
  | |- wp (modify _) _ _ => apply wp_modify
  | |- wp (emit _) _ _ => apply wp_emit
  | |- wp (throw _) _ _ => apply wp_throw
  | |- wp (call _ _) _ _ => apply wp_call
  | |- wp renderNotes _ _ => apply wp_renderNotes; intros ?d
  | |- wp (match ?x with _ => _ end) _ _ => wp_case x
  | |- wp _ _ _ => progress autounfold with progs
  | |- match ?c with Normal _ => _ | Throw _ => _ end => wp_case c
  end.

(** Projections of the worlds and environments built on the way. *)
Ltac wp_norm :=
  cbn [notes currentNoteIndex dom storage set_notes set_currentNoteIndex
       set_dom set_storage initialView notesView loadingView inputText
       errorMsg tabsContainer contentContainer window_ai Date_now
       Date_toISOString storage_set_error storage_get_error].

(** Symbolic execution that also follows [renderNotes]. *)
Ltac wp_exec :=
  unfold noteData; wp_norm;
  lazymatch goal with
  | |- wp renderNotes _ _ => unfold renderNotes
  | _ => wp_step
  end.

(* ===================================================================== *)
(** * Every stored note has a section *)
(* ===================================================================== *)

Lemma length_splice {A} (start deleteCount : nat) (l : list A) :
  length (splice start deleteCount l)
  = Nat.min start (length l) + (length l - (start + deleteCount)).
Proof. unfold splice. by rewrite length_app, length_take, length_drop. Qed.

Lemma Forall_splice {A} (P : A -> Prop) start deleteCount (l : list A) :
  Forall P l -> Forall P (splice start deleteCount l).
Proof.
  intros H. unfold splice. apply Forall_app.
  split; [by apply Forall_take | by apply Forall_drop].
Qed.

Lemma has_section_noteData env summary reflection text :
  has_section (noteData env summary reflection text).
Proof. unfold has_section; simpl; lia. Qed.

Lemma store_ok_set_dom d w : store_ok w -> store_ok (set_dom d w).
Proof. done. Qed.

Lemma store_ok_set_currentNoteIndex i w :
  store_ok w -> store_ok (set_currentNoteIndex i w).
Proof. done. Qed.

Lemma store_ok_saved st w :
  st = storage w \/ st = Some (notes w) ->
  store_ok w -> store_ok (set_storage st w).
Proof.
  intros Hst [Hn Hs]. split; [done|]. simpl. intros ns ->.
  destruct Hst as [Hst|Hst]; [by apply Hs | by injection Hst as ->].
Qed.

Lemma store_ok_persisted w :
  store_ok w -> store_ok (set_storage (Some (notes w)) w).
Proof. intros Hw. apply store_ok_saved; [by right | done]. Qed.

Lemma store_ok_set_notes ns w :
  Forall has_section ns -> store_ok w -> store_ok (set_notes ns w).
Proof. intros Hns [_ Hs]. by split. Qed.

Lemma store_ok_notes_after_delete ns note noteIndex sectionIndex :
  Forall has_section ns -> ns !! noteIndex = Some note ->
  Forall has_section (notes_after_delete ns note noteIndex sectionIndex).
Proof.
  intros Hns Hn. unfold notes_after_delete.
  destruct (Nat.eqb_spec (length (sections note)) 1) as [|Hne].
  - by apply Forall_splice.
  - apply Forall_insert; [done|].
    assert (has_section note) as Hnote by (by eapply Forall_lookup_1).
    unfold has_section in *. simpl. rewrite length_splice. lia.
Qed.

Create HintDb store.
#[local] Hint Resolve store_ok_set_dom store_ok_set_currentNoteIndex
  store_ok_saved store_ok_set_notes has_section_noteData : store.

Lemma store_ok_loadNotes env w :
  store_ok w -> wp (loadNotes env) (fun _ w' _ => store_ok w') w.
Proof.
  intros Hw. repeat wp_step; auto with store.
  all: repeat apply store_ok_set_dom; apply store_ok_set_notes; auto;
    by apply (proj2 Hw).
Qed.

Lemma store_ok_deleteSection env noteIndex sectionIndex w :
  store_ok w ->
  wp (deleteSection env noteIndex sectionIndex) (fun _ w' _ => store_ok w') w.
Proof.
  intros Hw. unfold wp.
  destruct (notes w !! noteIndex) as [note|] eqn:Hn.
  - destruct (deleteSection_found env w noteIndex sectionIndex note Hn)
      as (d & st & evs & -> & Hst & _). simpl.
    apply (store_ok_set_dom d
             (set_storage st (set_notes
                (notes_after_delete (notes w) note noteIndex sectionIndex) w))).
    apply store_ok_saved; [exact Hst|]. apply store_ok_set_notes; [|done].
    apply store_ok_notes_after_delete; [apply (proj1 Hw) | done].
  - rewrite deleteSection_missing by done. exact Hw.
Qed.

Lemma store_ok_titleSpan_blur env noteIndex sectionIndex textContent w :
  store_ok w ->
  wp (titleSpan_blur env noteIndex sectionIndex textContent)
     (fun _ w' _ => store_ok w') w.
Proof.
  intros Hw. repeat wp_step; auto.
  all: try apply store_ok_persisted; apply store_ok_set_notes; [|done].
  all: apply Forall_insert; [apply (proj1 Hw)|].
  all: unfold has_section; simpl; rewrite length_insert.
  all: by eapply (Forall_lookup_1 has_section); [apply (proj1 Hw)|].
Qed.

Lemma store_ok_switchTab noteIndex sectionIndex w :
  store_ok w ->
  wp (switchTab noteIndex sectionIndex) (fun _ w' _ => store_ok w') w.
Proof. intros Hw. repeat wp_step; auto. Qed.

Lemma store_ok_generateNotes env w :
  store_ok w -> wp (generateNotes env) (fun _ w' _ => store_ok w') w.
Proof.
  intros Hw. repeat wp_step; auto.
  all: repeat (first [ apply store_ok_set_dom | apply store_ok_set_currentNoteIndex ]);
    try apply store_ok_persisted;
    try (apply store_ok_set_notes; [|done];
         apply Forall_app; split; [apply (proj1 Hw)|];
         apply Forall_singleton, has_section_noteData);
    auto.
Qed.

Lemma store_ok_step env ev w : store_ok w -> store_ok (step env ev w).
Proof.
  intros Hw. unfold step.
  change (wp (listener env ev) (fun _ w' _ => store_ok w') w).
  destruct ev; simpl.
  - by apply store_ok_loadNotes.
  - by repeat wp_step.
  - by apply store_ok_generateNotes.
  - by repeat wp_step.
  - by repeat wp_step.
  - by apply store_ok_titleSpan_blur.
  - by apply store_ok_deleteSection.
  - by apply store_ok_switchTab.
Qed.

Lemma store_ok_fresh_popup html stored :
  (forall ns, stored = Some ns -> Forall has_section ns) ->
  store_ok (fresh_popup html stored).
Proof. intros H. split; [constructor | exact H]. Qed.

Lemma reachable_store_ok html w : reachable html w -> store_ok w.
Proof.
  induction 1 as [|env ev w _ IH|w _ IH].
  - by apply store_ok_fresh_popup.
  - by apply store_ok_step.
  - apply store_ok_fresh_popup. apply IH.
Qed.



(* ===================================================================== *)
(** * generateNotes *)
(* ===================================================================== *)

Lemma generateNotes_blank env w :
  trim (inputText (dom w)) = [] ->
  generateNotes env w = showError validation_message w.
Proof.
  intros H. unfold generateNotes.
  erewrite bind_Normal by reflexivity. rewrite H.
  unfold log_before. by destruct (showError validation_message w) as [[r w'] evs].
Qed.

Lemma generateNotes_text env w :
  trim (inputText (dom w)) <> [] ->
  generateNotes env w
  = try_catch (generateNotes_try env (trim (inputText (dom w))))
              generateNotes_catch w.
Proof.
  intros H. unfold generateNotes.
  erewrite bind_Normal by reflexivity.
  destruct (trim (inputText (dom w))) as [|c text] eqn:Htext; [done|].
  unfold log_before.
  by destruct (try_catch (generateNotes_try env (c :: text)) generateNotes_catch w)
    as [[r w'] evs].
Qed.

(** C3. When the trimmed input is empty, [generateNotes] puts the
    validation error into [errorMsg] and returns: it makes no external
    call at all (so no capability query, create, summarize or prompt, and
    no storage write), and the note store, the stored copy and the active
    index are as before. *)
Theorem empty_input_is_rejected env w :
  trim (inputText (dom w)) = [] ->
  let r := generateNotes env w in
  outcome r = Normal tt /\
  errorMsg (dom (world_of r)) = error_html validation_message /\
  events_of r = [] /\
  notes (world_of r) = notes w /\
  storage (world_of r) = storage w /\
  currentNoteIndex (world_of r) = currentNoteIndex w.
Proof.
  intros H r. subst r. rewrite (generateNotes_blank env w H).
  repeat split.
Qed.

Lemma empty_input_is_rejected_witness :
  let r := generateNotes demo_env demo_blank in
  outcome r = Normal tt /\
  errorMsg (dom (world_of r)) = error_html validation_message /\
  events_of r = [] /\
  notes (world_of r) = notes demo_blank /\
  storage (world_of r) = storage demo_blank /\
  currentNoteIndex (world_of r) = currentNoteIndex demo_blank.
Proof.
  apply (empty_input_is_rejected demo_env demo_blank). reflexivity.
Defined.

Lemma generateNotes_succeeded env w :
  generation_succeeds env w ->
  generateNotes env w = generateNotes_try env (trim (inputText (dom w))) w.
Proof.
  intros [Htext Hok]. rewrite (generateNotes_text env w Htext).
  unfold try_catch.
  destruct (generateNotes_try env (trim (inputText (dom w))) w) as [[r w'] evs].
  unfold outcome in Hok; simpl in Hok. by rewrite Hok.
Qed.

(** What a completed [try] block leaves: the new note is last in the
    array and is the active one. *)
Lemma generateNotes_try_Normal env text w :
  wp (generateNotes_try env text)
     (fun r w' _ =>
        r = Normal tt ->
        exists summary reflection,
          notes w' = notes w ++ [noteData env summary reflection text]
          /\ currentNoteIndex w' = (Z.of_nat (length (notes w')) - 1)%Z) w.
Proof.
  repeat wp_step; try discriminate.
  all: intros _; eexists _, _; split; reflexivity.
Qed.

(** C2. When the trimmed input is not empty and the generation succeeds,
    the store is the old store followed by one new note, whose sections
    are exactly three, titled 'Summary', 'Reflection' and 'Original Text'
    in this order, the third holding the trimmed input text. *)
Theorem successful_generation_has_three_sections env w :
  generation_succeeds env w ->
  let w' := step env GenerateClick w in
  exists note summary reflection,
    notes w' = notes w ++ [note] /\
    length (sections note) = 3 /\
    map title (sections note)
    = [lit "Summary"; lit "Reflection"; lit "Original Text"] /\
    sections note
    = [ mkSection (lit "Summary") summary;
        mkSection (lit "Reflection") reflection;
        mkSection (lit "Original Text") (trim (inputText (dom w))) ].
Proof.
  intros Hgen w'. subst w'. unfold step; simpl.
  rewrite (generateNotes_succeeded env w Hgen).
  destruct Hgen as [_ Hok].
  destruct (generateNotes_try_Normal env (trim (inputText (dom w))) w Hok)
    as (summary & reflection & Hnotes & _).
  exists (noteData env summary reflection (trim (inputText (dom w)))),
    summary, reflection.
  by rewrite Hnotes.
Qed.

Lemma successful_generation_has_three_sections_witness :
  let w' := step demo_env GenerateClick demo_typed in
  exists note summary reflection,
    notes w' = notes demo_typed ++ [note] /\
    length (sections note) = 3 /\
    map title (sections note)
    = [lit "Summary"; lit "Reflection"; lit "Original Text"] /\
    sections note
    = [ mkSection (lit "Summary") summary;
        mkSection (lit "Reflection") reflection;
        mkSection (lit "Original Text") (trim (inputText (dom demo_typed))) ].
Proof.
  apply (successful_generation_has_three_sections demo_env demo_typed).
  split; [discriminate | reflexivity].
Defined.

(** C9. After a successful generation [currentNoteIndex] is the length of
    the store minus one, the store is one note longer than before, and the
    note at that index is the one just appended. *)
Theorem successful_generation_activates_new_note env w :
  generation_succeeds env w ->
  let w' := step env GenerateClick w in
  currentNoteIndex w' = (Z.of_nat (length (notes w')) - 1)%Z /\
  length (notes w') = S (length (notes w)) /\
  exists note,
    notes w' = notes w ++ [note] /\
    notes w' !! Z.to_nat (currentNoteIndex w') = Some note.
Proof.
  intros Hgen w'. subst w'. unfold step; simpl.
  rewrite (generateNotes_succeeded env w Hgen).
  destruct Hgen as [_ Hok].
  destruct (generateNotes_try_Normal env (trim (inputText (dom w))) w Hok)
    as (summary & reflection & Hnotes & Hcur).
  rewrite Hcur, Hnotes. rewrite length_app; simpl.
  split; [done|]. split; [lia|].
  eexists; split; [reflexivity|].
  replace (Z.to_nat (Z.of_nat (length (notes w) + 1) - 1)) with (length (notes w) + 0) by lia.
  by rewrite lookup_app_r, Nat.add_0_r, Nat.sub_diag by lia.
Qed.

Lemma successful_generation_activates_new_note_witness :
  let w' := step demo_env GenerateClick demo_blank_then_typed in
  currentNoteIndex w' = (Z.of_nat (length (notes w')) - 1)%Z /\
  length (notes w') = S (length (notes demo_blank_then_typed)) /\
  exists note,
    notes w' = notes demo_blank_then_typed ++ [note] /\
    notes w' !! Z.to_nat (currentNoteIndex w') = Some note.
Proof.
  apply (successful_generation_activates_new_note demo_env demo_blank_then_typed).
  split; [discriminate | reflexivity].
Defined.

(* ===================================================================== *)
(** * Failures of a generation *)
(* ===================================================================== *)

(** No operation is called twice in one run of [generateNotes]. *)
Lemma generateNotes_calls_once env w :
  NoDup (omap operation (events_of (generateNotes env w))).
Proof.
  change (wp (generateNotes env) (fun _ _ evs => NoDup (omap operation evs)) w).
  repeat wp_step; simpl; by apply (bool_decide_unpack _).
Qed.

(** Whatever the [try] block of [generateNotes] throws, and wherever, the
    listener itself completes: the [catch] logs the error, hides the
    loading view and assigns to [errorMsg.innerHTML] the markup of
    [showError] around the text 'Error: ' and the error's [message], which
    is put there as it is, not escaped.  Nothing is retried: the calls
    made are those of the one run of the [try] block, and no operation is
    called twice. *)
Theorem generation_failure_is_caught env w error w1 evs :
  trim (inputText (dom w)) <> [] ->
  generateNotes_try env (trim (inputText (dom w))) w = (Throw error, w1, evs) ->
  let r := generateNotes env w in
  outcome r = Normal tt /\
  loadingView (dom (world_of r)) = lit "none" /\
  errorMsg (dom (world_of r)) = error_html (lit "Error: " ++ message error) /\
  events_of r = evs ++ [ConsoleError (lit "Error generating notes:") error] /\
  omap operation (events_of r) = omap operation evs /\
  NoDup (omap operation (events_of r)) /\
  notes (world_of r) = notes w1 /\
  storage (world_of r) = storage w1.
Proof.
  intros Htext Htry r.
  pose proof (generateNotes_calls_once env w) as Honce.
  subst r. rewrite (generateNotes_text env w Htext) in *.
  unfold try_catch in *. rewrite Htry in *.
  unfold outcome, world_of, events_of in *; simpl in *.
  repeat split; try done.
  rewrite omap_app; simpl. by rewrite app_nil_r.
Qed.

Lemma generation_failure_is_caught_witness :
  let error := TypeError_undefined_reading (lit "summarizer") in
  let w1 := world_of (showLoading demo_typed) in
  let r := generateNotes demo_env_no_ai demo_typed in
  outcome r = Normal tt /\
  loadingView (dom (world_of r)) = lit "none" /\
  errorMsg (dom (world_of r)) = error_html (lit "Error: " ++ message error) /\
  events_of r = [] ++ [ConsoleError (lit "Error generating notes:") error] /\
  omap operation (events_of r) = omap operation [] /\
  NoDup (omap operation (events_of r)) /\
  notes (world_of r) = notes w1 /\
  storage (world_of r) = storage w1.
Proof.
  apply (generation_failure_is_caught demo_env_no_ai demo_typed).
  - discriminate.
  - reflexivity.
Defined.

(** C6. The catch does handle the failure, hide the loading view and
    retry nothing, but it does not show every message verbatim: when
    [summarize()] rejects with the message [x < 1 & <b>y</b>], what is
    assigned to [errorMsg.innerHTML] is the markup below, in which the
    message stands unescaped, so that its [<b>] is an element of the
    error box and not text. *)
Theorem error_message_markup_is_not_escaped :
  let r := generateNotes demo_env_markup_error demo_typed in
  outcome r = Normal tt /\
  events_of r
  = [ SummarizerCapabilities; LanguageModelCapabilities;
      SummarizerCreate summarizer_config; Summarize (lit "tea");
      ConsoleError (lit "Error generating notes:")
                   (mkError (lit "x < 1 & <b>y</b>")) ] /\
  loadingView (dom (world_of r)) = lit "none" /\
  errorMsg (dom (world_of r))
  = lit "<div class=" ++ dquote ++ lit "error" ++ dquote
    ++ lit ">Error: x < 1 & <b>y</b></div>".
Proof. repeat split. Qed.

(** When only the summarizer reports that it is unavailable and the
    language model's query throws, it is the thrown error that is shown;
    no instance is created either. *)
Lemma unavailable_summarizer_stops_generation env w canSummarize :
  trim (inputText (dom w)) <> [] ->
  outcome (query_summarizer env w) = Normal canSummarize ->
  reports_no canSummarize = true ->
  let r := generateNotes env w in
  outcome r = Normal tt /\
  Forall (fun ev => uses_instance ev = false) (events_of r) /\
  notes (world_of r) = notes w /\
  loadingView (dom (world_of r)) = lit "none" /\
  exists error,
    errorMsg (dom (world_of r)) = error_html (lit "Error: " ++ message error)
    /\ (forall c, outcome (query_languageModel env w) = Normal c ->
          error = mkError unavailable_message).
Proof.
  intros Htext Hs Hno r. subst r.
  rewrite (generateNotes_text env w Htext).
  change (wp (try_catch (generateNotes_try env (trim (inputText (dom w))))
                        generateNotes_catch)
             (fun r w' log =>
                r = Normal tt /\
                Forall (fun ev => uses_instance ev = false) log /\
                notes w' = notes w /\
                loadingView (dom w') = lit "none" /\
                exists error,
                  errorMsg (dom w') = error_html (lit "Error: " ++ message error)
                  /\ (forall c, outcome (query_languageModel env w) = Normal c ->
                        error = mkError unavailable_message)) w).
  unfold query_summarizer, query_languageModel, outcome, call in *.
  destruct (window_ai env) as [ai|] eqn:Hai; [|simpl in Hs; by injection Hs as <-].
  destruct (summarizer ai) as [sf|] eqn:Hsf; [|simpl in Hs; by injection Hs as <-].
  simpl in Hs.
  destruct (languageModel ai) as [lf|] eqn:Hlf;
    repeat wp_step;
    try match goal with
        | H : reports_no _ || _ = false |- _ =>
            rewrite Hno in H; discriminate H
        end;
    wp_norm; cbn [app];
    (split; [reflexivity|]); (split; [repeat (apply Forall_cons_2; [reflexivity|]); apply Forall_nil_2|]);
    (split; [reflexivity|]); (split; [reflexivity|]);
    eexists; (split; [reflexivity|]); intros c Hc; simpl in Hc; congruence.
Qed.

(** When both capability queries answer and either answer has
    [available === 'no'], the generation stops there: the message that
    the built-in AI APIs are not available is what [errorMsg] shows, the
    loading view is hidden, and no summarizer or session was created (or
    used) on the way; the store is untouched. *)
Theorem unavailable_fails_before_create env w canSummarize canUseLanguageModel :
  trim (inputText (dom w)) <> [] ->
  outcome (query_summarizer env w) = Normal canSummarize ->
  outcome (query_languageModel env w) = Normal canUseLanguageModel ->
  reports_no canSummarize = true \/ reports_no canUseLanguageModel = true ->
  let r := generateNotes env w in
  outcome r = Normal tt /\
  errorMsg (dom (world_of r)) = error_html (lit "Error: " ++ unavailable_message) /\
  loadingView (dom (world_of r)) = lit "none" /\
  Forall (fun ev => uses_instance ev = false) (events_of r) /\
  In (ConsoleError (lit "Error generating notes:") (mkError unavailable_message))
     (events_of r) /\
  notes (world_of r) = notes w /\
  storage (world_of r) = storage w.
Proof.
  intros Htext Hs Hl Hno r. subst r.
  rewrite (generateNotes_text env w Htext).
  assert (Hor : reports_no canSummarize || reports_no canUseLanguageModel = true)
    by (apply orb_true_iff; exact Hno).
  clear Hno.
  match goal with
  | |- _ = _ /\ _ = _ /\ _ = _ /\ Forall ?P _ /\ In ?c _ /\ _ = _ /\ _ = _ =>
      change (wp (try_catch (generateNotes_try env (trim (inputText (dom w))))
                            generateNotes_catch)
                 (fun r w' log =>
                    r = Normal tt /\
                    errorMsg (dom w') = error_html (lit "Error: " ++ unavailable_message) /\
                    loadingView (dom w') = lit "none" /\
                    Forall P log /\ In c log /\
                    notes w' = notes w /\ storage w' = storage w) w)
  end.
  unfold query_summarizer, query_languageModel, outcome, call in Hs, Hl.
  destruct (window_ai env) as [ai|] eqn:Hai.
  - destruct (summarizer ai) as [sf|] eqn:Hsf;
      destruct (languageModel ai) as [lf|] eqn:Hlf; simpl in Hs, Hl;
      try (injection Hs as <-); try (injection Hl as <-);
      repeat wp_step; simpl; repeat split; auto 10.
  - simpl in Hs, Hl. injection Hs as <-. injection Hl as <-. discriminate Hor.
Qed.

Lemma unavailable_fails_before_create_witness :
  let r := generateNotes demo_env_unavailable demo_typed in
  outcome r = Normal tt /\
  errorMsg (dom (world_of r)) = error_html (lit "Error: " ++ unavailable_message) /\
  loadingView (dom (world_of r)) = lit "none" /\
  Forall (fun ev => uses_instance ev = false) (events_of r) /\
  In (ConsoleError (lit "Error generating notes:") (mkError unavailable_message))
     (events_of r) /\
  notes (world_of r) = notes demo_typed /\
  storage (world_of r) = storage demo_typed.
Proof.
  apply (unavailable_fails_before_create demo_env_unavailable demo_typed
           (Some (mkCapabilities (lit "no")))
           (Some (mkCapabilities (lit "readily")))).
  - discriminate.
  - reflexivity.
  - reflexivity.
  - left. reflexivity.
Defined.

(** When the language model's capability query throws after the
    summarizer's has answered, that error is the one caught: it is shown,
    and nothing was created. *)
Lemma languageModel_query_throws env w canSummarize e :
  trim (inputText (dom w)) <> [] ->
  outcome (query_summarizer env w) = Normal canSummarize ->
  outcome (query_languageModel env w) = Throw e ->
  let r := generateNotes env w in
  outcome r = Normal tt /\
  errorMsg (dom (world_of r)) = error_html (lit "Error: " ++ message e) /\
  loadingView (dom (world_of r)) = lit "none" /\
  Forall (fun ev => uses_instance ev = false) (events_of r) /\
  In (ConsoleError (lit "Error generating notes:") e) (events_of r) /\
  notes (world_of r) = notes w /\
  storage (world_of r) = storage w.
Proof.
  intros Htext Hs Hl r. subst r.
  rewrite (generateNotes_text env w Htext).
  match goal with
  | |- _ = _ /\ _ = _ /\ _ = _ /\ Forall ?P _ /\ In ?c _ /\ _ = _ /\ _ = _ =>
      change (wp (try_catch (generateNotes_try env (trim (inputText (dom w))))
                            generateNotes_catch)
                 (fun r w' log =>
                    r = Normal tt /\
                    errorMsg (dom w') = error_html (lit "Error: " ++ message e) /\
                    loadingView (dom w') = lit "none" /\
                    Forall P log /\ In c log /\
                    notes w' = notes w /\ storage w' = storage w) w)
  end.
  unfold query_summarizer, query_languageModel, outcome, call in Hs, Hl.
  destruct (window_ai env) as [ai|] eqn:Hai; [|discriminate Hl].
  destruct (languageModel ai) as [lf|] eqn:Hlf; [|discriminate Hl].
  destruct (summarizer ai) as [sf|] eqn:Hsf; simpl in Hs, Hl;
    try (injection Hs as <-);
    repeat wp_step; simpl; repeat split; auto 10.
Qed.

(** C4 as stated fails: the summarizer reports that it is unavailable, and
    yet what the user is shown is not the message about the built-in AI
    APIs but the error that the language model's capability query threw
    (both queries are awaited before the answers are tested). *)
Lemma unavailable_summarizer_can_show_the_thrown_error :
  let r := generateNotes demo_env_lm_query_throws demo_typed in
  trim (inputText (dom demo_typed)) <> [] /\
  (summarizer_reports_unavailable demo_env_lm_query_throws demo_typed
   \/ languageModel_reports_unavailable demo_env_lm_query_throws demo_typed) /\
  errorMsg (dom (world_of r)) = error_html (lit "Error: boom") /\
  errorMsg (dom (world_of r)) <> error_html (lit "Error: " ++ unavailable_message).
Proof.
  split; [discriminate|]. split; [|split].
  - left. exists (Some (mkCapabilities (lit "no"))). split; reflexivity.
  - reflexivity.
  - intros H. vm_compute in H. discriminate H.
Qed.

(** C4 (amended). If the capability query of the summarizer or of the
    language model reports unavailable, the generation fails before any
    summarizer or session is created or used: the store and the stored
    copy are untouched, the loading view is hidden and the caught error
    is logged and shown.  That error is the descriptive one, about the
    built-in AI APIs, whenever the language model's query answered; when
    that query threw instead (the summarizer having reported
    unavailable), it is the error thrown. *)
Theorem unavailable_fails_before_any_instance env w :
  trim (inputText (dom w)) <> [] ->
  summarizer_reports_unavailable env w
  \/ languageModel_reports_unavailable env w ->
  let r := generateNotes env w in
  outcome r = Normal tt /\
  loadingView (dom (world_of r)) = lit "none" /\
  Forall (fun ev => uses_instance ev = false) (events_of r) /\
  notes (world_of r) = notes w /\
  storage (world_of r) = storage w /\
  exists error,
    errorMsg (dom (world_of r)) = error_html (lit "Error: " ++ message error) /\
    In (ConsoleError (lit "Error generating notes:") error) (events_of r) /\
    ((exists c, outcome (query_languageModel env w) = Normal c) ->
     error = mkError unavailable_message) /\
    (forall e, outcome (query_languageModel env w) = Throw e -> error = e).
Proof.
  intros Htext Hrep r.
  assert (Hcases :
    (exists c1 c2, outcome (query_summarizer env w) = Normal c1
                   /\ outcome (query_languageModel env w) = Normal c2
                   /\ (reports_no c1 = true \/ reports_no c2 = true))
    \/ (exists c1 e, outcome (query_summarizer env w) = Normal c1
                     /\ outcome (query_languageModel env w) = Throw e)).
  { destruct Hrep as [(c1 & Hs & Hno)|[(c1 & Hs) (c2 & Hl & Hno)]].
    - destruct (outcome (query_languageModel env w)) as [c2|e] eqn:Hl.
      + left. exists c1, c2. auto.
      + right. by exists c1, e.
    - left. exists c1, c2. auto. }
  destruct Hcases as [(c1 & c2 & Hs & Hl & Hno)|(c1 & e & Hs & Hl)].
  - destruct (unavailable_fails_before_create env w c1 c2 Htext Hs Hl Hno)
      as (Hout & Herr & Hload & Hinst & Hlog & Hnotes & Hst).
    do 5 (split; [done|]). exists (mkError unavailable_message).
    split; [done|]. split; [done|]. split; [done|].
    intros e He. rewrite Hl in He. discriminate He.
  - destruct (languageModel_query_throws env w c1 e Htext Hs Hl)
      as (Hout & Herr & Hload & Hinst & Hlog & Hnotes & Hst).
    do 5 (split; [done|]). exists e.
    split; [done|]. split; [done|]. split.
    + intros (c & Hc). rewrite Hl in Hc. discriminate Hc.
    + intros e' He'. rewrite Hl in He'. by injection He'.
Qed.

Lemma unavailable_fails_before_any_instance_witness :
  let r := generateNotes demo_env_lm_query_throws demo_typed in
  outcome r = Normal tt /\
  loadingView (dom (world_of r)) = lit "none" /\
  Forall (fun ev => uses_instance ev = false) (events_of r) /\
  notes (world_of r) = notes demo_typed /\
  storage (world_of r) = storage demo_typed /\
  exists error,
    errorMsg (dom (world_of r)) = error_html (lit "Error: " ++ message error) /\
    In (ConsoleError (lit "Error generating notes:") error) (events_of r) /\
    ((exists c, outcome (query_languageModel demo_env_lm_query_throws demo_typed)
                = Normal c) ->
     error = mkError unavailable_message) /\
    (forall e, outcome (query_languageModel demo_env_lm_query_throws demo_typed)
               = Throw e -> error = e).
Proof.
  apply (unavailable_fails_before_any_instance demo_env_lm_query_throws demo_typed).
  - discriminate.
  - left. exists (Some (mkCapabilities (lit "no"))). split; reflexivity.
Defined.

(* ===================================================================== *)
(** * Renaming a section, saving and loading *)
(* ===================================================================== *)

Lemma titleSpan_blur_saved env w noteIndex sectionIndex textContent note section :
  notes w !! noteIndex = Some note ->
  sections note !! sectionIndex = Some section ->
  storage_set_error env = None ->
  let ns' := notes_after_rename (notes w) note section noteIndex sectionIndex
                                textContent in
  titleSpan_blur env noteIndex sectionIndex textContent w
  = (Normal tt, set_storage (Some ns') (set_notes ns' w), [StorageSet ns']).
Proof.
  intros Hn Hs Hset ns'.
  unfold titleSpan_blur.
  erewrite bind_Normal by reflexivity. rewrite Hn, Hs.
  erewrite bind_Normal by reflexivity.
  by rewrite (saveNotes_ok env _ Hset).
Qed.

(** Loading when storage answers and holds an array: the array in memory
    is the stored one. *)
Lemma loadNotes_stored env w ns :
  storage_get_error env = None ->
  storage w = Some ns ->
  notes (world_of (loadNotes env w)) = ns
  /\ outcome (loadNotes env w) = Normal tt.
Proof.
  intros Hget Hst.
  change (wp (loadNotes env) (fun r w' _ => notes w' = ns /\ r = Normal tt) w).
  repeat wp_step; done.
Qed.

(** C7. After a section is renamed and the save went through, a load from
    storage (in the same popup or in a reopened one, whatever it holds in
    memory) that succeeds yields the store as it was after the renaming:
    the section carries the new title and its old content, and every
    other section and note is as before the renaming. *)
Theorem rename_survives_reload
    env env' w w2 noteIndex sectionIndex newTitle note section :
  notes w !! noteIndex = Some note ->
  sections note !! sectionIndex = Some section ->
  storage_set_error env = None ->
  storage_get_error env' = None ->
  let renamed := step env (TitleBlur noteIndex sectionIndex newTitle) w in
  storage w2 = storage renamed ->
  let reloaded := step env' DOMContentLoaded w2 in
  notes reloaded = notes renamed /\
  length (notes reloaded) = length (notes w) /\
  (exists note',
     notes reloaded !! noteIndex = Some note' /\
     id note' = id note /\
     timestamp note' = timestamp note /\
     length (sections note') = length (sections note) /\
     sections note' !! sectionIndex = Some (mkSection newTitle (content section)) /\
     (forall k, k <> sectionIndex -> sections note' !! k = sections note !! k)) /\
  (forall k, k <> noteIndex -> notes reloaded !! k = notes w !! k).
Proof.
  intros Hn Hs Hset Hget renamed Hst reloaded.
  assert (Hren : renamed = set_storage (Some (notes_after_rename (notes w) note section
                                   noteIndex sectionIndex newTitle))
                   (set_notes (notes_after_rename (notes w) note section
                                   noteIndex sectionIndex newTitle) w)).
  { unfold renamed, step; simpl.
    by rewrite (titleSpan_blur_saved env w noteIndex sectionIndex newTitle
                  note section Hn Hs Hset). }
  assert (Hload : notes reloaded = notes renamed).
  { unfold reloaded, step; simpl.
    apply (loadNotes_stored env' w2); [done|]. by rewrite Hst, Hren. }
  rewrite Hload, Hren. simpl. unfold notes_after_rename.
  apply lookup_lt_Some in Hn as Hi. apply lookup_lt_Some in Hs as Hj.
  split; [done|]. split; [apply length_insert|]. split.
  - eexists. split; [by apply list_lookup_insert_eq|]. simpl.
    repeat split.
    + apply length_insert.
    + by apply list_lookup_insert_eq.
    + intros k Hk. by apply list_lookup_insert_ne.
  - intros k Hk. by apply list_lookup_insert_ne.
Qed.

Lemma rename_survives_reload_witness :
  let renamed := step demo_env (TitleBlur 0 1 (lit "Thoughts")) demo_world in
  let reloaded :=
    step demo_env DOMContentLoaded (fresh_popup demo_html (storage renamed)) in
  notes reloaded = notes renamed /\
  length (notes reloaded) = length (notes demo_world) /\
  (exists note',
     notes reloaded !! 0 = Some note' /\
     id note' = id demo_note /\
     timestamp note' = timestamp demo_note /\
     length (sections note') = length (sections demo_note) /\
     sections note' !! 1
     = Some (mkSection (lit "Thoughts") (lit "Worth remembering.")) /\
     (forall k, k <> 1 -> sections note' !! k = sections demo_note !! k)) /\
  (forall k, k <> 0 -> notes reloaded !! k = notes demo_world !! k).
Proof.
  apply (rename_survives_reload demo_env demo_env demo_world
           (fresh_popup demo_html
              (storage (step demo_env (TitleBlur 0 1 (lit "Thoughts")) demo_world)))
           0 1 (lit "Thoughts") demo_note
           (mkSection (lit "Reflection") (lit "Worth remembering."))).
  - reflexivity.
  - reflexivity.
  - reflexivity.
  - reflexivity.
  - reflexivity.
Defined.

(* ===================================================================== *)
(** * Persisting the store *)
(* ===================================================================== *)

(** A listener that changed the array has called [set] with the array it
    left. *)
Lemma mutation_is_written env ev w :
  mutates_store ev = true ->
  wp (listener env ev)
     (fun _ w' evs => notes w' <> notes w -> In (StorageSet (notes w')) evs) w.
Proof.
  intros Hev. destruct ev; try discriminate Hev; clear Hev.
  all: repeat wp_exec; simpl; intros Hne; auto 10; by destruct Hne.
Qed.

(** A rejected write changes nothing but the log. *)
Lemma rejected_write_is_logged_only ai now iso e get_error ev w :
  mutates_store ev = true ->
  wp (listener (mkEnv ai now iso (Some e) get_error) ev)
     (fun r1 w1 evs1 =>
        wp (listener (mkEnv ai now iso None get_error) ev)
           (fun r2 w2 evs2 =>
              same_popup (r1, w1, evs1) (r2, w2, evs2)
              /\ storage w1 = storage w
              /\ (forall ns, In (StorageSet ns) evs1 ->
                    In (ConsoleError (lit "Error saving notes:") e) evs1)) w) w.
Proof.
  intros Hev. destruct ev; try discriminate Hev; clear Hev.
  all: repeat wp_exec; unfold same_popup; simpl; repeat split; auto.
  all: intros ns Hin;
    first [ solve [exfalso; clear -Hin; intuition discriminate]
          | solve [repeat (first [left; reflexivity | right])] ].
Qed.

(** C8. Generation, section deletion and section rename persist what
    they change: whenever one of them leaves the array different, it has
    called [chrome.storage.local.set] with the array it left.  When the
    write is rejected, [saveNotes] does not throw and changes nothing; it
    logs the error to the console.  The listener then ends exactly as it
    would have with a storage that accepts the write, as to its
    completion, the array in memory, the active index and every DOM
    element (so no error is shown for it); only the stored copy stays
    what it was. *)
Theorem every_mutation_is_persisted env ev w :
  mutates_store ev = true ->
  let r := listener env ev w in
  (notes (world_of r) <> notes w ->
   In (StorageSet (notes (world_of r))) (events_of r)) /\
  (forall e, storage_set_error env = Some e ->
     saveNotes env w
     = (Normal tt, w,
        [StorageSet (notes w); ConsoleError (lit "Error saving notes:") e])
     /\ same_popup r (listener (storage_accepts env) ev w)
     /\ storage (world_of r) = storage w
     /\ (forall ns, In (StorageSet ns) (events_of r) ->
           In (ConsoleError (lit "Error saving notes:") e) (events_of r))).
Proof.
  intros Hev r. split.
  - apply (mutation_is_written env ev w Hev).
  - intros e He. split; [by apply saveNotes_rejected|].
    destruct env as [ai now iso set_error get_error].
    simpl in He. subst set_error. unfold storage_accepts; simpl.
    apply (rejected_write_is_logged_only ai now iso e get_error ev w Hev).
Qed.

Lemma every_mutation_is_persisted_witness :
  let r := listener demo_env_quota GenerateClick demo_typed in
  (notes (world_of r) <> notes demo_typed ->
   In (StorageSet (notes (world_of r))) (events_of r)) /\
  (forall e, storage_set_error demo_env_quota = Some e ->
     saveNotes demo_env_quota demo_typed
     = (Normal tt, demo_typed,
        [StorageSet (notes demo_typed);
         ConsoleError (lit "Error saving notes:") e])
     /\ same_popup r (listener (storage_accepts demo_env_quota) GenerateClick
                               demo_typed)
     /\ storage (world_of r) = storage demo_typed
     /\ (forall ns, In (StorageSet ns) (events_of r) ->
           In (ConsoleError (lit "Error saving notes:") e) (events_of r))).
Proof.
  apply (every_mutation_is_persisted demo_env_quota GenerateClick demo_typed).
  reflexivity.
Defined.


(* ===================================================================== *)
(** * The model at work *)
(* ===================================================================== *)

Example trim_strips_both_ends :
  trim (lit "  tea " ++ LF ++ [160%N]) = lit "tea".
Proof. reflexivity. Qed.

Example trim_keeps_inner_blanks :
  trim (lit " milk and honey ") = lit "milk and honey".
Proof. reflexivity. Qed.

Example splice_past_the_end : splice 5 1 [1; 2; 3] = [1; 2; 3].
Proof. reflexivity. Qed.

(** The calls of a generation that goes well, in order. *)
Example generation_calls :
  events_of (listener demo_env GenerateClick demo_typed)
  = [ SummarizerCapabilities; LanguageModelCapabilities;
      SummarizerCreate summarizer_config; Summarize (lit "tea");
      LanguageModelCreate session_config;
      Prompt (reflectionPrompt (lit "- tea"));
      StorageSet [demo_note]; SummarizerDestroy; SessionDestroy ].
Proof. reflexivity. Qed.

Example generation_result :
  let w' := step demo_env GenerateClick demo_typed in
  notes w' = [demo_note] /\ storage w' = Some [demo_note]
  /\ currentNoteIndex w' = 0%Z
  /\ notesView (dom w') = lit "flex" /\ inputText (dom w') = [].
Proof. repeat split. Qed.

(** Without [window.ai] both capability queries are skipped and the
    property access of the first [create] throws. *)
Example generation_without_ai :
  let r := listener demo_env_no_ai GenerateClick demo_typed in
  events_of r
  = [ ConsoleError (lit "Error generating notes:")
        (TypeError_undefined_reading (lit "summarizer")) ]
  /\ errorMsg (dom (world_of r))
     = error_html (lit "Error: Cannot read properties of undefined (reading 'summarizer')")
  /\ notes (world_of r) = [].
Proof. repeat split. Qed.

(** A listener called with an index that is not in the array throws and
    leaves the world alone. *)
Example delete_out_of_range :
  listener demo_env (DeleteClick 7 0) demo_world
  = (Throw (TypeError_undefined_reading (lit "sections")), demo_world, []).
Proof. reflexivity. Qed.

(* ===================================================================== *)
(** * renderNotes *)
(* ===================================================================== *)

Lemma elem_of_concat_imap {A C} (f : nat -> A -> list C) (l : list A) (x : C) :
  x ∈ concat (imap f l) <-> exists i a, l !! i = Some a /\ x ∈ f i a.
Proof.
  rewrite list_elem_of_In, in_concat. split.
  - intros (k & Hk & Hx). apply list_elem_of_In, elem_of_lookup_imap in Hk.
    destruct Hk as (i & a & -> & Hi). exists i, a. by rewrite list_elem_of_In.
  - intros (i & a & Hi & Hx). exists (f i a). split.
    + apply list_elem_of_In. by apply elem_of_lookup_imap_2.
    + by apply list_elem_of_In.
Qed.

Lemma map_imap {A B C} (g : B -> C) (f : nat -> A -> B) (l : list A) :
  map g (imap f l) = imap (fun i a => g (f i a)) l.
Proof. revert f. induction l as [|a l IH]; intros f; simpl; [done|]. by rewrite IH. Qed.

Lemma map_concat_imap {A B C} (g : B -> C) (f : nat -> A -> list B) (l : list A) :
  map g (concat (imap f l)) = concat (imap (fun i a => map g (f i a)) l).
Proof. by rewrite concat_map, map_imap. Qed.

Lemma render_tabs_indices ns cur :
  map tab_index (render_tabs ns cur) = section_indices ns.
Proof.
  unfold render_tabs, section_indices. rewrite map_concat_imap.
  f_equal. apply imap_ext. intros i n _. by rewrite map_imap.
Qed.

Lemma render_panes_indices ns cur :
  map pane_index (render_panes ns cur) = section_indices ns.
Proof.
  unfold render_panes, section_indices. rewrite map_concat_imap.
  f_equal. apply imap_ext. intros i n _. by rewrite map_imap.
Qed.

Lemma elem_of_render_tabs ns cur t :
  t ∈ render_tabs ns cur <->
  exists noteIndex note sectionIndex section,
    ns !! noteIndex = Some note /\
    sections note !! sectionIndex = Some section /\
    t = mkTab (is_active cur noteIndex sectionIndex) noteIndex sectionIndex
              (title section).
Proof.
  unfold render_tabs. rewrite elem_of_concat_imap. split.
  - intros (i & n & Hi & Ht). apply elem_of_lookup_imap in Ht.
    destruct Ht as (j & s & -> & Hj). by exists i, n, j, s.
  - intros (i & n & j & s & Hi & Hj & ->). exists i, n. split; [done|].
    by apply (elem_of_lookup_imap_2 (fun sectionIndex section =>
      mkTab (is_active cur i sectionIndex) i sectionIndex (title section))).
Qed.

Lemma elem_of_render_panes ns cur p :
  p ∈ render_panes ns cur <->
  exists noteIndex note sectionIndex section,
    ns !! noteIndex = Some note /\
    sections note !! sectionIndex = Some section /\
    p = mkPane (is_active cur noteIndex sectionIndex) noteIndex sectionIndex
               (title section) (content section).
Proof.
  unfold render_panes. rewrite elem_of_concat_imap. split.
  - intros (i & n & Hi & Ht). apply elem_of_lookup_imap in Ht.
    destruct Ht as (j & s & -> & Hj). by exists i, n, j, s.
  - intros (i & n & j & s & Hi & Hj & ->). exists i, n. split; [done|].
    by apply (elem_of_lookup_imap_2 (fun sectionIndex section =>
      mkPane (is_active cur i sectionIndex) i sectionIndex (title section)
             (content section))).
Qed.

Lemma elem_of_section_indices ns i j :
  (i, j) ∈ section_indices ns <->
  exists note, ns !! i = Some note /\ j < length (sections note).
Proof.
  unfold section_indices. rewrite elem_of_concat_imap. split.
  - intros (i' & n & Hi & Hin). apply elem_of_lookup_imap in Hin.
    destruct Hin as (j' & s & [= -> ->] & Hj). exists n. split; [done|].
    by eapply lookup_lt_Some.
  - intros (n & Hi & Hj). exists i, n. split; [done|].
    destruct (lookup_lt_is_Some_2 (sections n) j Hj) as [s Hs].
    by apply (elem_of_lookup_imap_2 (fun sectionIndex (_ : NoteSection) =>
                                       (i, sectionIndex)) _ s).
Qed.

(** The running of [renderNotes] on a store that is not empty. *)
Lemma renderNotes_nonempty w :
  notes w <> [] ->
  renderNotes w
  = (Normal tt,
     set_dom (mkDom (initialView (dom w)) (notesView (dom w))
                    (loadingView (dom w)) (inputText (dom w)) (errorMsg (dom w))
                    (render_tabs (notes w) (currentNoteIndex w))
                    (render_panes (notes w) (currentNoteIndex w))) w,
     []).
Proof.
  intros Hne. unfold renderNotes.
  erewrite bind_Normal by reflexivity.
  destruct (notes w) as [|n ns] eqn:Hns; [done|]. reflexivity.
Qed.

Lemma renderNotes_empty w :
  notes w = [] -> renderNotes w = showInitialView w.
Proof.
  intros Hns. unfold renderNotes.
  erewrite bind_Normal by reflexivity. rewrite Hns. simpl.
  unfold log_before. by destruct (showInitialView w) as [[r w'] evs].
Qed.

Lemma NoDup_indices_from k (ns : list Note) :
  NoDup (concat (imap (fun i note =>
           imap (fun j (_ : NoteSection) => (k + i, j)) (sections note)) ns)).
Proof.
  revert k. induction ns as [|n ns IH]; intros k; [constructor|].
  rewrite imap_cons, concat_cons. apply NoDup_app. split; [|split].
  - apply NoDup_alt. intros p q x Hp Hq.
    apply list_lookup_imap_Some in Hp as (? & _ & ->).
    apply list_lookup_imap_Some in Hq as (? & _ & Heq). by injection Heq.
  - intros x Hx Hx'. apply elem_of_lookup_imap in Hx as (j & s & -> & _).
    apply elem_of_concat_imap in Hx' as (i & n' & _ & Hin).
    apply elem_of_lookup_imap in Hin as (j' & s' & Heq & _).
    simpl in Heq. injection Heq as Heq _. lia.
  - rewrite (imap_ext _ (fun i note =>
        imap (fun j (_ : NoteSection) => (S k + i, j)) (sections note))).
    + apply IH.
    + intros i n' _. simpl. apply imap_ext. intros j s _. f_equal. lia.
Qed.

Lemma NoDup_section_indices ns : NoDup (section_indices ns).
Proof. apply (NoDup_indices_from 0). Qed.

Lemma is_active_true cur noteIndex sectionIndex :
  is_active cur noteIndex sectionIndex = true <->
  Z.of_nat noteIndex = cur /\ sectionIndex = 0.
Proof.
  unfold is_active. rewrite andb_true_iff, Z.eqb_eq, Nat.eqb_eq. done.
Qed.

(** X1. [renderNotes] on a store that is not empty rebuilds both
    containers from the store alone: there is one tab and one content
    section per section of a note, in the order of the store, labelled
    with the section's position, and carrying the section's title (and
    content).  The three views, the textarea and the error box are left
    alone, and nothing is called. *)
Theorem renderNotes_lists_every_section w :
  notes w <> [] ->
  let r := renderNotes w in
  let d := dom (world_of r) in
  outcome r = Normal tt /\ events_of r = [] /\
  map tab_index (tabsContainer d) = section_indices (notes w) /\
  map pane_index (contentContainer d) = section_indices (notes w) /\
  (forall noteIndex sectionIndex title',
     (exists t, t ∈ tabsContainer d /\ tab_index t = (noteIndex, sectionIndex)
                /\ tab_title t = title')
     <-> (exists note section,
            notes w !! noteIndex = Some note /\
            sections note !! sectionIndex = Some section /\
            title section = title')) /\
  (forall noteIndex sectionIndex heading text,
     (exists p, p ∈ contentContainer d
                /\ pane_index p = (noteIndex, sectionIndex)
                /\ pane_heading p = heading /\ pane_content p = text)
     <-> (exists note section,
            notes w !! noteIndex = Some note /\
            sections note !! sectionIndex = Some section /\
            title section = heading /\ content section = text)) /\
  notes (world_of r) = notes w /\
  (initialView d, notesView d, loadingView d, inputText d, errorMsg d)
  = (initialView (dom w), notesView (dom w), loadingView (dom w),
     inputText (dom w), errorMsg (dom w)).
Proof.
  intros Hne r d. subst d r. rewrite (renderNotes_nonempty w Hne).
  unfold outcome, world_of, events_of; simpl.
  split; [done|]. split; [done|].
  split; [apply render_tabs_indices|]. split; [apply render_panes_indices|].
  split; [|split; [|done]].
  - intros i j ttl. split.
    + intros (t & Ht & Hidx & Httl). apply elem_of_render_tabs in Ht.
      destruct Ht as (i' & n & j' & s & Hi & Hj & ->).
      injection Hidx as -> ->. simpl in Httl. by exists n, s.
    + intros (n & s & Hi & Hj & Httl).
      exists (mkTab (is_active (currentNoteIndex w) i j) i j (title s)).
      split; [|by rewrite <- Httl].
      apply elem_of_render_tabs. by exists i, n, j, s.
  - intros i j hd tx. split.
    + intros (p & Hp & Hidx & Hhd & Htx). apply elem_of_render_panes in Hp.
      destruct Hp as (i' & n & j' & s & Hi & Hj & ->).
      injection Hidx as -> ->. simpl in Hhd, Htx. by exists n, s.
    + intros (n & s & Hi & Hj & Hhd & Htx).
      exists (mkPane (is_active (currentNoteIndex w) i j) i j (title s) (content s)).
      split; [|by rewrite <- Hhd, <- Htx].
      apply elem_of_render_panes. by exists i, n, j, s.
Qed.

Lemma renderNotes_lists_every_section_witness :
  let r := renderNotes demo_world in
  let d := dom (world_of r) in
  outcome r = Normal tt /\ events_of r = [] /\
  map tab_index (tabsContainer d) = section_indices (notes demo_world) /\
  map pane_index (contentContainer d) = section_indices (notes demo_world) /\
  (forall noteIndex sectionIndex title',
     (exists t, t ∈ tabsContainer d /\ tab_index t = (noteIndex, sectionIndex)
                /\ tab_title t = title')
     <-> (exists note section,
            notes demo_world !! noteIndex = Some note /\
            sections note !! sectionIndex = Some section /\
            title section = title')) /\
  (forall noteIndex sectionIndex heading text,
     (exists p, p ∈ contentContainer d
                /\ pane_index p = (noteIndex, sectionIndex)
                /\ pane_heading p = heading /\ pane_content p = text)
     <-> (exists note section,
            notes demo_world !! noteIndex = Some note /\
            sections note !! sectionIndex = Some section /\
            title section = heading /\ content section = text)) /\
  notes (world_of r) = notes demo_world /\
  (initialView d, notesView d, loadingView d, inputText d, errorMsg d)
  = (initialView (dom demo_world), notesView (dom demo_world),
     loadingView (dom demo_world), inputText (dom demo_world),
     errorMsg (dom demo_world)).
Proof.
  apply (renderNotes_lists_every_section demo_world). discriminate.
Defined.

Lemma render_flags_agree ns cur :
  map tab_active (render_tabs ns cur) = map pane_active (render_panes ns cur).
Proof.
  unfold render_tabs, render_panes. rewrite !map_concat_imap.
  f_equal. apply imap_ext. intros i n _. by rewrite !map_imap.
Qed.

(** X2. After [renderNotes] on a store that is not empty, a tab is
    highlighted exactly when it is the tab of the first section of the
    note at [currentNoteIndex]; so at most one position of the tab strip
    is highlighted, one is whenever [currentNoteIndex] addresses a note
    with a section, and none is when it addresses no note.  The content
    section at the same position carries the same highlight. *)
Theorem renderNotes_highlights_current_note w :
  notes w <> [] ->
  let d := dom (world_of (renderNotes w)) in
  (forall t, t ∈ tabsContainer d ->
     (tab_active t = true <->
      Z.of_nat (tab_noteIndex t) = currentNoteIndex w /\ tab_sectionIndex t = 0)) /\
  (forall p q t1 t2,
     tabsContainer d !! p = Some t1 -> tabsContainer d !! q = Some t2 ->
     tab_active t1 = true -> tab_active t2 = true -> p = q) /\
  (forall noteIndex note,
     Z.of_nat noteIndex = currentNoteIndex w ->
     notes w !! noteIndex = Some note -> sections note <> [] ->
     exists t, t ∈ tabsContainer d /\ tab_active t = true) /\
  ((forall noteIndex, Z.of_nat noteIndex = currentNoteIndex w ->
                      notes w !! noteIndex = None) ->
   Forall (fun t => tab_active t = false) (tabsContainer d)) /\
  map tab_active (tabsContainer d) = map pane_active (contentContainer d).
Proof.
  intros Hne d. subst d. rewrite (renderNotes_nonempty w Hne).
  unfold world_of; simpl.
  assert (Hact : forall t, t ∈ render_tabs (notes w) (currentNoteIndex w) ->
            (tab_active t = true <->
             Z.of_nat (tab_noteIndex t) = currentNoteIndex w
             /\ tab_sectionIndex t = 0)).
  { intros t Ht. apply elem_of_render_tabs in Ht.
    destruct Ht as (i & n & j & s & _ & _ & ->). simpl. apply is_active_true. }
  split; [exact Hact|]. split; [|split; [|split]].
  - intros p q t1 t2 Hp Hq H1 H2.
    pose proof (NoDup_section_indices (notes w)) as Hnd.
    rewrite <- (render_tabs_indices _ (currentNoteIndex w)) in Hnd.
    apply (NoDup_lookup _ p q (tab_index t1) Hnd).
    + by rewrite list_lookup_fmap, Hp.
    + rewrite list_lookup_fmap, Hq. simpl. f_equal.
      apply Hact in H1; [|by eapply list_elem_of_lookup_2].
      apply Hact in H2; [|by eapply list_elem_of_lookup_2].
      unfold tab_index. destruct H1 as [H1 ->], H2 as [H2 ->].
      f_equal. lia.
  - intros i n Hcur Hi Hs. destruct (sections n) as [|s ss] eqn:Hss; [done|].
    exists (mkTab (is_active (currentNoteIndex w) i 0) i 0 (title s)). split.
    + apply elem_of_render_tabs. exists i, n, 0, s. by rewrite Hss.
    + simpl. by apply is_active_true.
  - intros Hnone. apply Forall_forall. intros t Ht.
    destruct (tab_active t) eqn:Hta; [|done].
    apply Hact in Hta as [Hcur _]; [|done].
    apply elem_of_render_tabs in Ht as (i & n & j & s & Hi & _ & ->).
    simpl in Hcur. by rewrite (Hnone i Hcur) in Hi.
  - apply render_flags_agree.
Qed.

Lemma renderNotes_highlights_current_note_witness :
  let d := dom (world_of (renderNotes demo_world)) in
  (forall t, t ∈ tabsContainer d ->
     (tab_active t = true <->
      Z.of_nat (tab_noteIndex t) = currentNoteIndex demo_world
      /\ tab_sectionIndex t = 0)) /\
  (forall p q t1 t2,
     tabsContainer d !! p = Some t1 -> tabsContainer d !! q = Some t2 ->
     tab_active t1 = true -> tab_active t2 = true -> p = q) /\
  (forall noteIndex note,
     Z.of_nat noteIndex = currentNoteIndex demo_world ->
     notes demo_world !! noteIndex = Some note -> sections note <> [] ->
     exists t, t ∈ tabsContainer d /\ tab_active t = true) /\
  ((forall noteIndex, Z.of_nat noteIndex = currentNoteIndex demo_world ->
                      notes demo_world !! noteIndex = None) ->
   Forall (fun t => tab_active t = false) (tabsContainer d)) /\
  map tab_active (tabsContainer d) = map pane_active (contentContainer d).
Proof.
  apply (renderNotes_highlights_current_note demo_world). discriminate.
Defined.

(* ===================================================================== *)
(** * switchTab *)
(* ===================================================================== *)

Lemma tab_activate_None noteIndex sectionIndex ts :
  tab_activate noteIndex sectionIndex ts = None <->
  Forall (fun t => tab_index t <> (noteIndex, sectionIndex)) ts.
Proof.
  induction ts as [|t ts IH]; simpl; [by split; [constructor|]|].
  destruct (Nat.eqb_spec (tab_noteIndex t) noteIndex) as [Hi|Hi];
    destruct (Nat.eqb_spec (tab_sectionIndex t) sectionIndex) as [Hj|Hj]; simpl.
  - split; [done|]. intros H. apply Forall_cons_1 in H as [H _].
    destruct H. unfold tab_index. by rewrite Hi, Hj.
  - destruct (tab_activate noteIndex sectionIndex ts); simpl.
    + split; [done|]. intros H. apply Forall_cons_1 in H as [_ H].
      by apply IH in H.
    + split; [|done]. intros _. apply Forall_cons_2; [|by apply IH].
      unfold tab_index. congruence.
  - destruct (tab_activate noteIndex sectionIndex ts); simpl.
    + split; [done|]. intros H. apply Forall_cons_1 in H as [_ H].
      by apply IH in H.
    + split; [|done]. intros _. apply Forall_cons_2; [|by apply IH].
      unfold tab_index. congruence.
  - destruct (tab_activate noteIndex sectionIndex ts); simpl.
    + split; [done|]. intros H. apply Forall_cons_1 in H as [_ H].
      by apply IH in H.
    + split; [|done]. intros _. apply Forall_cons_2; [|by apply IH].
      unfold tab_index. congruence.
Qed.

Lemma pane_activate_None noteIndex sectionIndex ps :
  pane_activate noteIndex sectionIndex ps = None <->
  Forall (fun p => pane_index p <> (noteIndex, sectionIndex)) ps.
Proof.
  induction ps as [|t ts IH]; simpl; [by split; [constructor|]|].
  destruct (Nat.eqb_spec (pane_noteIndex t) noteIndex) as [Hi|Hi];
    destruct (Nat.eqb_spec (pane_sectionIndex t) sectionIndex) as [Hj|Hj]; simpl.
  - split; [done|]. intros H. apply Forall_cons_1 in H as [H _].
    destruct H. unfold pane_index. by rewrite Hi, Hj.
  - destruct (pane_activate noteIndex sectionIndex ts); simpl.
    + split; [done|]. intros H. apply Forall_cons_1 in H as [_ H].
      by apply IH in H.
    + split; [|done]. intros _. apply Forall_cons_2; [|by apply IH].
      unfold pane_index. congruence.
  - destruct (pane_activate noteIndex sectionIndex ts); simpl.
    + split; [done|]. intros H. apply Forall_cons_1 in H as [_ H].
      by apply IH in H.
    + split; [|done]. intros _. apply Forall_cons_2; [|by apply IH].
      unfold pane_index. congruence.
  - destruct (pane_activate noteIndex sectionIndex ts); simpl.
    + split; [done|]. intros H. apply Forall_cons_1 in H as [_ H].
      by apply IH in H.
    + split; [|done]. intros _. apply Forall_cons_2; [|by apply IH].
      unfold pane_index. congruence.
Qed.

(** What [querySelector(...).classList.add('active')] changes, after every
    tab lost its highlight: the first tab with the wanted position gets
    the highlight, every tab keeps its position and title. *)
Lemma tab_activate_Some noteIndex sectionIndex ts ts' :
  tab_activate noteIndex sectionIndex (map tab_deactivate ts) = Some ts' ->
  exists first,
    (exists t, ts !! first = Some t /\ tab_index t = (noteIndex, sectionIndex)) /\
    (forall q t, q < first -> ts !! q = Some t ->
                 tab_index t <> (noteIndex, sectionIndex)) /\
    (forall q, ts' !! q
               = (fun t => mkTab (bool_decide (q = first)) (tab_noteIndex t)
                                 (tab_sectionIndex t) (tab_title t)) <$> ts !! q).
Proof.
  revert ts'. induction ts as [|t ts IH]; intros ts'; simpl; [done|].
  destruct ((tab_noteIndex t =? noteIndex) && (tab_sectionIndex t =? sectionIndex))
    eqn:Hm.
  - intros [= <-]. exists 0.
    apply andb_true_iff in Hm as [Hi%Nat.eqb_eq Hj%Nat.eqb_eq].
    split; [exists t; split; [done|]; unfold tab_index; by rewrite Hi, Hj|].
    split; [intros q t' Hq; lia|].
    intros [|q]; simpl; [done|].
    rewrite list_lookup_fmap. destruct (ts !! q) as [t'|]; simpl; [|done].
    done.
  - destruct (tab_activate noteIndex sectionIndex (map tab_deactivate ts))
      as [ts0|] eqn:Hts; simpl; [|done].
    intros [= <-]. destruct (IH ts0 eq_refl) as (first & Hfirst & Hbefore & Hall).
    exists (S first). split; [exact Hfirst|]. split.
    + intros [|q] t' Hq; simpl.
      * intros [= <-]. unfold tab_index. intros [= Hi Hj].
        rewrite Hi, Hj, !Nat.eqb_refl in Hm. discriminate.
      * apply Hbefore. lia.
    + intros [|q]; simpl; [done|]. rewrite Hall.
      destruct (ts !! q) as [t'|]; simpl; [|done].
      f_equal. f_equal. apply bool_decide_ext. lia.
Qed.

Lemma pane_activate_Some noteIndex sectionIndex ps ps' :
  pane_activate noteIndex sectionIndex (map pane_deactivate ps) = Some ps' ->
  exists first,
    (exists p, ps !! first = Some p /\ pane_index p = (noteIndex, sectionIndex)) /\
    (forall q p, q < first -> ps !! q = Some p ->
                 pane_index p <> (noteIndex, sectionIndex)) /\
    (forall q, ps' !! q
               = (fun p => mkPane (bool_decide (q = first)) (pane_noteIndex p)
                                  (pane_sectionIndex p) (pane_heading p)
                                  (pane_content p)) <$> ps !! q).
Proof.
  revert ps'. induction ps as [|t ts IH]; intros ts'; simpl; [done|].
  destruct ((pane_noteIndex t =? noteIndex) && (pane_sectionIndex t =? sectionIndex))
    eqn:Hm.
  - intros [= <-]. exists 0.
    apply andb_true_iff in Hm as [Hi%Nat.eqb_eq Hj%Nat.eqb_eq].
    split; [exists t; split; [done|]; unfold pane_index; by rewrite Hi, Hj|].
    split; [intros q t' Hq; lia|].
    intros [|q]; simpl; [done|].
    rewrite list_lookup_fmap. destruct (ts !! q) as [t'|]; simpl; [|done].
    done.
  - destruct (pane_activate noteIndex sectionIndex (map pane_deactivate ts))
      as [ts0|] eqn:Hts; simpl; [|done].
    intros [= <-]. destruct (IH ts0 eq_refl) as (first & Hfirst & Hbefore & Hall).
    exists (S first). split; [exact Hfirst|]. split.
    + intros [|q] t' Hq; simpl.
      * intros [= <-]. unfold pane_index. intros [= Hi Hj].
        rewrite Hi, Hj, !Nat.eqb_refl in Hm. discriminate.
      * apply Hbefore. lia.
    + intros [|q]; simpl; [done|]. rewrite Hall.
      destruct (ts !! q) as [t'|]; simpl; [|done].
      f_equal. f_equal. apply bool_decide_ext. lia.
Qed.

Lemma tab_index_deactivate ts :
  map tab_index (map tab_deactivate ts) = map tab_index ts.
Proof. rewrite map_map. by apply map_ext. Qed.

Lemma pane_index_deactivate ps :
  map pane_index (map pane_deactivate ps) = map pane_index ps.
Proof. rewrite map_map. by apply map_ext. Qed.

Lemma Forall_tab_index_deactivate (P : nat * nat -> Prop) ts :
  Forall (fun t => P (tab_index t)) (map tab_deactivate ts)
  <-> Forall (fun t => P (tab_index t)) ts.
Proof.
  induction ts as [|t ts IH]; simpl; [done|].
  rewrite !Forall_cons. by rewrite IH.
Qed.

Lemma Forall_pane_index_deactivate (P : nat * nat -> Prop) ps :
  Forall (fun p => P (pane_index p)) (map pane_deactivate ps)
  <-> Forall (fun p => P (pane_index p)) ps.
Proof.
  induction ps as [|p ps IH]; simpl; [done|].
  rewrite !Forall_cons. by rewrite IH.
Qed.

(** A run is determined by what [wp] says of it. *)
Lemma wp_run {A} (m : Prog A) w x :
  wp m (fun r w' evs => (r, w', evs) = x) w -> m w = x.
Proof. unfold wp, outcome, world_of, events_of. by destruct (m w) as [[r w'] evs]. Qed.

(** The three ways [switchTab] can end. *)
Lemma switchTab_no_tab noteIndex sectionIndex w :
  tab_activate noteIndex sectionIndex (map tab_deactivate (tabsContainer (dom w)))
  = None ->
  switchTab noteIndex sectionIndex w
  = (Throw TypeError_null_classList,
     set_dom (mkDom (initialView (dom w)) (notesView (dom w)) (loadingView (dom w))
                    (inputText (dom w)) (errorMsg (dom w))
                    (map tab_deactivate (tabsContainer (dom w)))
                    (contentContainer (dom w))) w,
     []).
Proof.
  intros Hts.
  apply wp_run. repeat wp_exec; reflexivity.
Qed.

Lemma switchTab_no_pane noteIndex sectionIndex w ts' :
  tab_activate noteIndex sectionIndex (map tab_deactivate (tabsContainer (dom w)))
  = Some ts' ->
  pane_activate noteIndex sectionIndex
    (map pane_deactivate (contentContainer (dom w))) = None ->
  switchTab noteIndex sectionIndex w
  = (Throw TypeError_null_classList,
     set_dom (mkDom (initialView (dom w)) (notesView (dom w)) (loadingView (dom w))
                    (inputText (dom w)) (errorMsg (dom w)) ts'
                    (map pane_deactivate (contentContainer (dom w)))) w,
     []).
Proof.
  intros Hts Hps.
  apply wp_run. repeat wp_exec; reflexivity.
Qed.

Lemma switchTab_found noteIndex sectionIndex w ts' ps' :
  tab_activate noteIndex sectionIndex (map tab_deactivate (tabsContainer (dom w)))
  = Some ts' ->
  pane_activate noteIndex sectionIndex
    (map pane_deactivate (contentContainer (dom w))) = Some ps' ->
  switchTab noteIndex sectionIndex w
  = (Normal tt,
     mkWorld (notes w) (Z.of_nat noteIndex)
       (mkDom (initialView (dom w)) (notesView (dom w)) (loadingView (dom w))
              (inputText (dom w)) (errorMsg (dom w)) ts' ps')
       (storage w),
     []).
Proof.
  intros Hts Hps.
  apply wp_run. repeat wp_exec; reflexivity.
Qed.

(** X3. [switchTab] on a position that has a tab and a content section:
    it completes without calling anything, [currentNoteIndex] becomes
    [noteIndex], the store, the stored copy, the views, the textarea and
    the error box are untouched, and in each container exactly the first
    element with that position is highlighted, every element keeping its
    position, title and content. *)
Theorem switchTab_highlights_the_clicked_tab noteIndex sectionIndex w :
  (noteIndex, sectionIndex) ∈ map tab_index (tabsContainer (dom w)) ->
  (noteIndex, sectionIndex) ∈ map pane_index (contentContainer (dom w)) ->
  let r := switchTab noteIndex sectionIndex w in
  let w' := world_of r in
  outcome r = Normal tt /\ events_of r = [] /\
  currentNoteIndex w' = Z.of_nat noteIndex /\
  notes w' = notes w /\ storage w' = storage w /\
  (initialView (dom w'), notesView (dom w'), loadingView (dom w'),
   inputText (dom w'), errorMsg (dom w'))
  = (initialView (dom w), notesView (dom w), loadingView (dom w),
     inputText (dom w), errorMsg (dom w)) /\
  (exists first,
     (exists t, tabsContainer (dom w) !! first = Some t
                /\ tab_index t = (noteIndex, sectionIndex)) /\
     (forall q t, q < first -> tabsContainer (dom w) !! q = Some t ->
                  tab_index t <> (noteIndex, sectionIndex)) /\
     (forall q, tabsContainer (dom w') !! q
                = (fun t => mkTab (bool_decide (q = first)) (tab_noteIndex t)
                                  (tab_sectionIndex t) (tab_title t))
                  <$> tabsContainer (dom w) !! q)) /\
  (exists first,
     (exists p, contentContainer (dom w) !! first = Some p
                /\ pane_index p = (noteIndex, sectionIndex)) /\
     (forall q p, q < first -> contentContainer (dom w) !! q = Some p ->
                  pane_index p <> (noteIndex, sectionIndex)) /\
     (forall q, contentContainer (dom w') !! q
                = (fun p => mkPane (bool_decide (q = first)) (pane_noteIndex p)
                                   (pane_sectionIndex p) (pane_heading p)
                                   (pane_content p))
                  <$> contentContainer (dom w) !! q)).
Proof.
  intros Ht Hp r w'. subst w' r.
  destruct (tab_activate noteIndex sectionIndex
              (map tab_deactivate (tabsContainer (dom w)))) as [ts'|] eqn:Hts.
  2:{ apply tab_activate_None in Hts.
      apply (proj1 (Forall_tab_index_deactivate
                      (fun x => x <> (noteIndex, sectionIndex)) _)) in Hts.
      apply list_elem_of_fmap in Ht as (t & Heq & Hin).
      rewrite Forall_forall in Hts. by destruct (Hts t Hin). }
  destruct (pane_activate noteIndex sectionIndex
              (map pane_deactivate (contentContainer (dom w)))) as [ps'|] eqn:Hps.
  2:{ apply pane_activate_None in Hps.
      apply (proj1 (Forall_pane_index_deactivate
                      (fun x => x <> (noteIndex, sectionIndex)) _)) in Hps.
      apply list_elem_of_fmap in Hp as (p & Heq & Hin).
      rewrite Forall_forall in Hps. by destruct (Hps p Hin). }
  rewrite (switchTab_found noteIndex sectionIndex w ts' ps' Hts Hps).
  unfold outcome, world_of, events_of; simpl.
  repeat (split; [done|]). split.
  - by apply tab_activate_Some.
  - by apply pane_activate_Some.
Qed.

Lemma switchTab_highlights_the_clicked_tab_witness :
  let r := switchTab 0 1 demo_generated in
  let w' := world_of r in
  outcome r = Normal tt /\ events_of r = [] /\
  currentNoteIndex w' = Z.of_nat 0 /\
  notes w' = notes demo_generated /\ storage w' = storage demo_generated /\
  (initialView (dom w'), notesView (dom w'), loadingView (dom w'),
   inputText (dom w'), errorMsg (dom w'))
  = (initialView (dom demo_generated), notesView (dom demo_generated),
     loadingView (dom demo_generated), inputText (dom demo_generated),
     errorMsg (dom demo_generated)) /\
  (exists first,
     (exists t, tabsContainer (dom demo_generated) !! first = Some t
                /\ tab_index t = (0, 1)) /\
     (forall q t, q < first -> tabsContainer (dom demo_generated) !! q = Some t ->
                  tab_index t <> (0, 1)) /\
     (forall q, tabsContainer (dom w') !! q
                = (fun t => mkTab (bool_decide (q = first)) (tab_noteIndex t)
                                  (tab_sectionIndex t) (tab_title t))
                  <$> tabsContainer (dom demo_generated) !! q)) /\
  (exists first,
     (exists p, contentContainer (dom demo_generated) !! first = Some p
                /\ pane_index p = (0, 1)) /\
     (forall q p, q < first -> contentContainer (dom demo_generated) !! q = Some p ->
                  pane_index p <> (0, 1)) /\
     (forall q, contentContainer (dom w') !! q
                = (fun p => mkPane (bool_decide (q = first)) (pane_noteIndex p)
                                   (pane_sectionIndex p) (pane_heading p)
                                   (pane_content p))
                  <$> contentContainer (dom demo_generated) !! q)).
Proof.
  apply (switchTab_highlights_the_clicked_tab 0 1 demo_generated).
  - apply (bool_decide_unpack _). vm_compute. reflexivity.
  - apply (bool_decide_unpack _). vm_compute. reflexivity.
Defined.

(** X4. [switchTab] on a position without a tab, or without a content
    section, throws the [TypeError] of [null.classList] after the
    highlights of the container it looked into were removed:
    [currentNoteIndex] keeps its value, nothing is called, the store and
    the stored copy are untouched, and every tab keeps its position.  If it
    was the tab that was missing, no tab is highlighted any more and the
    content sections are as they were. *)
Theorem switchTab_missing_tab_throws noteIndex sectionIndex w :
  (noteIndex, sectionIndex) ∉ map tab_index (tabsContainer (dom w))
  \/ (noteIndex, sectionIndex) ∉ map pane_index (contentContainer (dom w)) ->
  let r := switchTab noteIndex sectionIndex w in
  let w' := world_of r in
  outcome r = Throw TypeError_null_classList /\ events_of r = [] /\
  currentNoteIndex w' = currentNoteIndex w /\
  notes w' = notes w /\ storage w' = storage w /\
  map tab_index (tabsContainer (dom w')) = map tab_index (tabsContainer (dom w)) /\
  ((noteIndex, sectionIndex) ∉ map tab_index (tabsContainer (dom w)) ->
   Forall (fun t => tab_active t = false) (tabsContainer (dom w'))
   /\ contentContainer (dom w') = contentContainer (dom w)).
Proof.
  intros Hmiss r w'. subst w' r.
  assert (Hnone : forall ts, (noteIndex, sectionIndex) ∉ map tab_index ts ->
            tab_activate noteIndex sectionIndex (map tab_deactivate ts) = None).
  { intros ts Hts. apply tab_activate_None.
    apply (proj2 (Forall_tab_index_deactivate
                    (fun x => x <> (noteIndex, sectionIndex)) _)).
    apply Forall_forall. intros t Hin Heq. apply Hts.
    apply list_elem_of_fmap. by exists t. }
  assert (Hoff : Forall (fun t => tab_active t = false)
                   (map tab_deactivate (tabsContainer (dom w)))).
  { apply Forall_forall. intros t Hin.
    apply list_elem_of_fmap in Hin as (t0 & -> & _). done. }
  destruct (tab_activate noteIndex sectionIndex
              (map tab_deactivate (tabsContainer (dom w)))) as [ts'|] eqn:Hts.
  - destruct Hmiss as [Hmiss|Hmiss]; [by rewrite (Hnone _ Hmiss) in Hts|].
    assert (Hps : pane_activate noteIndex sectionIndex
                    (map pane_deactivate (contentContainer (dom w))) = None).
    { apply pane_activate_None.
      apply (proj2 (Forall_pane_index_deactivate
                      (fun x => x <> (noteIndex, sectionIndex)) _)).
      apply Forall_forall. intros p Hin Heq. apply Hmiss.
      apply list_elem_of_fmap. by exists p. }
    rewrite (switchTab_no_pane noteIndex sectionIndex w ts' Hts Hps).
    unfold outcome, world_of, events_of; simpl.
    repeat (split; [done|]). split.
    + apply tab_activate_Some in Hts as (first & _ & _ & Hall).
      apply list_eq. intros q. rewrite !list_lookup_fmap, Hall.
      by destruct (tabsContainer (dom w) !! q).
    + intros Hno. by rewrite (Hnone _ Hno) in Hts.
  - rewrite (switchTab_no_tab noteIndex sectionIndex w Hts).
    unfold outcome, world_of, events_of; simpl.
    repeat (split; [done|]). split; [apply tab_index_deactivate|done].
Qed.

Lemma switchTab_missing_tab_throws_witness :
  let r := switchTab 5 0 demo_generated in
  let w' := world_of r in
  outcome r = Throw TypeError_null_classList /\ events_of r = [] /\
  currentNoteIndex w' = currentNoteIndex demo_generated /\
  notes w' = notes demo_generated /\ storage w' = storage demo_generated /\
  map tab_index (tabsContainer (dom w'))
  = map tab_index (tabsContainer (dom demo_generated)) /\
  ((5, 0) ∉ map tab_index (tabsContainer (dom demo_generated)) ->
   Forall (fun t => tab_active t = false) (tabsContainer (dom w'))
   /\ contentContainer (dom w') = contentContainer (dom demo_generated)).
Proof.
  apply (switchTab_missing_tab_throws 5 0 demo_generated).
  left. apply (bool_decide_unpack _). vm_compute. reflexivity.
Defined.

(* ===================================================================== *)
(** * loadNotes *)
(* ===================================================================== *)

(** X5. When nothing is stored under the key, or when storage rejects the
    read, [loadNotes] leaves the whole popup as it is and does not throw;
    a rejected read is logged to the console.  Nothing is written. *)
Theorem loadNotes_without_notes_changes_nothing env w :
  storage w = None \/ storage_get_error env <> None ->
  let r := loadNotes env w in
  outcome r = Normal tt /\ world_of r = w /\
  events_of r
  = StorageGet :: match storage_get_error env with
                  | Some e => [ConsoleError (lit "Error loading notes:") e]
                  | None => []
                  end.
Proof.
  intros H r. subst r.
  change (wp (loadNotes env)
            (fun r w' evs =>
               r = Normal tt /\ w' = w /\
               evs = StorageGet :: match storage_get_error env with
                                   | Some e => [ConsoleError (lit "Error loading notes:") e]
                                   | None => []
                                   end) w).
  destruct H as [H|H].
  - repeat wp_exec; try done; try by destruct w.
  - destruct (storage_get_error env) as [e|] eqn:He; [|done].
    repeat wp_exec; try done; try by destruct w.
Qed.

Lemma loadNotes_without_notes_changes_nothing_witness :
  let r := loadNotes demo_env demo_typed in
  outcome r = Normal tt /\ world_of r = demo_typed /\
  events_of r
  = StorageGet :: match storage_get_error demo_env with
                  | Some e => [ConsoleError (lit "Error loading notes:") e]
                  | None => []
                  end.
Proof.
  apply (loadNotes_without_notes_changes_nothing demo_env demo_typed).
  left. reflexivity.
Defined.

(** X6. When the read succeeds and an array is stored, [loadNotes]
    replaces the array in memory by the stored one and reads storage once,
    writing nothing; [currentNoteIndex] keeps its value.  A stored array
    that is not empty is rendered and the notes view is shown; an empty
    one shows the initial view with the textarea and the error box
    emptied, and leaves the containers as they were. *)
Theorem loadNotes_installs_the_stored_notes env w ns :
  storage_get_error env = None ->
  storage w = Some ns ->
  let r := loadNotes env w in
  let w' := world_of r in
  outcome r = Normal tt /\ events_of r = [StorageGet] /\
  notes w' = ns /\ storage w' = storage w /\
  currentNoteIndex w' = currentNoteIndex w /\
  (ns <> [] ->
   dom w' = mkDom (lit "none") (lit "flex") (lit "none")
                  (inputText (dom w)) (errorMsg (dom w))
                  (render_tabs ns (currentNoteIndex w))
                  (render_panes ns (currentNoteIndex w))) /\
  (ns = [] ->
   dom w' = mkDom (lit "flex") (lit "none") (lit "none") [] []
                  (tabsContainer (dom w)) (contentContainer (dom w))).
Proof.
  intros Hget Hst r w'. subst w' r.
  change (wp (loadNotes env)
            (fun r w' evs =>
               r = Normal tt /\ evs = [StorageGet] /\
               notes w' = ns /\ storage w' = storage w /\
               currentNoteIndex w' = currentNoteIndex w /\
               (ns <> [] ->
                dom w' = mkDom (lit "none") (lit "flex") (lit "none")
                               (inputText (dom w)) (errorMsg (dom w))
                               (render_tabs ns (currentNoteIndex w))
                               (render_panes ns (currentNoteIndex w))) /\
               (ns = [] ->
                dom w' = mkDom (lit "flex") (lit "none") (lit "none") [] []
                               (tabsContainer (dom w)) (contentContainer (dom w)))) w).
  destruct ns as [|n ns]; repeat wp_exec; try discriminate; wp_norm;
    repeat (split; [done|]); done.
Qed.

Lemma loadNotes_installs_the_stored_notes_witness :
  let w := fresh_popup demo_html (Some [demo_note; demo_single]) in
  let ns := [demo_note; demo_single] in
  let r := loadNotes demo_env w in
  let w' := world_of r in
  outcome r = Normal tt /\ events_of r = [StorageGet] /\
  notes w' = ns /\ storage w' = storage w /\
  currentNoteIndex w' = currentNoteIndex w /\
  (ns <> [] ->
   dom w' = mkDom (lit "none") (lit "flex") (lit "none")
                  (inputText (dom w)) (errorMsg (dom w))
                  (render_tabs ns (currentNoteIndex w))
                  (render_panes ns (currentNoteIndex w))) /\
  (ns = [] ->
   dom w' = mkDom (lit "flex") (lit "none") (lit "none") [] []
                  (tabsContainer (dom w)) (contentContainer (dom w))).
Proof.
  apply (loadNotes_installs_the_stored_notes demo_env
           (fresh_popup demo_html (Some [demo_note; demo_single]))
           [demo_note; demo_single]).
  - reflexivity.
  - reflexivity.
Defined.

(* ===================================================================== *)
(** * What reaches storage *)
(* ===================================================================== *)

(** Case analysis on the membership of an event in a log. *)
Ltac log_cases :=
  repeat match goal with
         | H : In _ _ |- _ => cbn [In app] in H
         | H : _ \/ _ |- _ => destruct H as [H|H]
         | H : False |- _ => destruct H
         | H : StorageSet _ = StorageSet _ |- _ => injection H as <-
         | H : @eq Event _ _ |- _ => discriminate H
         end.

(** With a storage that accepts the write, what a listener gave to
    [chrome.storage.local.set] is the stored copy it leaves. *)
Lemma listener_storage env ev w :
  storage_set_error env = None ->
  wp (listener env ev)
     (fun _ w' evs => forall ns, In (StorageSet ns) evs -> storage w' = Some ns) w.
Proof.
  intros Hok. destruct ev; repeat wp_exec; wp_norm.
  all: intros ns Hin; log_cases; congruence.
Qed.

(** X8. Whatever listener runs, the stored copy it leaves is either the
    one it found or the array it leaves in memory, and every
    [chrome.storage.local.set] it made was given that array; when storage
    accepts the write, the stored copy is that array. *)
Theorem storage_only_ever_holds_the_notes env ev w :
  let r := listener env ev w in
  let w' := world_of r in
  (storage w' = storage w \/ storage w' = Some (notes w')) /\
  (forall ns, In (StorageSet ns) (events_of r) -> ns = notes w') /\
  (forall ns, In (StorageSet ns) (events_of r) ->
     storage_set_error env = None -> storage w' = Some ns) /\
  (storage w' <> storage w -> In (StorageSet (notes w')) (events_of r)).
Proof.
  intros r w'. subst w' r.
  change (wp (listener env ev)
            (fun _ w' evs =>
               (storage w' = storage w \/ storage w' = Some (notes w')) /\
               (forall ns, In (StorageSet ns) evs -> ns = notes w') /\
               (forall ns, In (StorageSet ns) evs ->
                  storage_set_error env = None -> storage w' = Some ns) /\
               (storage w' <> storage w -> In (StorageSet (notes w')) evs)) w).
  destruct ev; repeat wp_exec; wp_norm.
  all: split; [auto|]; split; [intros ns Hin; log_cases; done|];
    split; [intros ns Hin Hok; log_cases; congruence|];
    intros Hne; try (by destruct Hne); cbn [In app]; auto 12.
Qed.

(** X7. Whatever generation, section deletion or section rename changed,
    if storage accepted the write then a later load that succeeds, in any
    popup over that storage, yields the changed array again. *)
Theorem mutation_survives_reload env env' ev w w2 :
  mutates_store ev = true ->
  storage_set_error env = None ->
  storage_get_error env' = None ->
  let w1 := step env ev w in
  notes w1 <> notes w ->
  storage w2 = storage w1 ->
  storage w1 = Some (notes w1) /\
  notes (step env' DOMContentLoaded w2) = notes w1.
Proof.
  intros Hev Hset Hget w1 Hne Hst.
  assert (Hstored : storage w1 = Some (notes w1)).
  { apply (listener_storage env ev w Hset).
    by apply (mutation_is_written env ev w Hev). }
  split; [done|].
  apply (loadNotes_stored env' w2); [done|]. by rewrite Hst.
Qed.

Lemma mutation_survives_reload_witness :
  let w1 := step demo_env (DeleteClick 0 1) demo_world in
  storage w1 = Some (notes w1) /\
  notes (step demo_env DOMContentLoaded (fresh_popup demo_html (storage w1)))
  = notes w1.
Proof.
  apply (mutation_survives_reload demo_env demo_env (DeleteClick 0 1) demo_world
           (fresh_popup demo_html
              (storage (step demo_env (DeleteClick 0 1) demo_world)))).
  - reflexivity.
  - reflexivity.
  - reflexivity.
  - discriminate.
  - reflexivity.
Defined.

(** X9. The listeners other than generation, deletion and rename never
    write to storage and never call the AI: typing, the clear and
    new-note buttons and a tab click call nothing at all and leave the
    store alone, and [DOMContentLoaded] only reads storage. *)
Theorem other_listeners_only_read env ev w :
  mutates_store ev = false ->
  let r := listener env ev w in
  storage (world_of r) = storage w /\
  Forall (fun e => operation e = None \/ operation e = Some OpStorageGet)
         (events_of r) /\
  (ev <> DOMContentLoaded ->
   events_of r = [] /\ notes (world_of r) = notes w) /\
  (ev = DOMContentLoaded ->
   notes (world_of r) = notes w \/ storage w = Some (notes (world_of r))).
Proof.
  intros Hev r. subst r.
  change (wp (listener env ev)
            (fun _ w' evs =>
               storage w' = storage w /\
               Forall (fun e => operation e = None \/ operation e = Some OpStorageGet)
                      evs /\
               (ev <> DOMContentLoaded -> evs = [] /\ notes w' = notes w) /\
               (ev = DOMContentLoaded ->
                notes w' = notes w \/ storage w = Some (notes w'))) w).
  destruct ev; try discriminate Hev; repeat wp_exec; wp_norm; cbn [app].
  all: split; [done|]; split; [repeat (apply Forall_cons_2; [auto|]); apply Forall_nil_2|];
    split; [intros Hne; try (by destruct Hne); done|]; intros Heq;
    try discriminate Heq; auto.
Qed.

Lemma other_listeners_only_read_witness :
  let r := listener demo_env (TabClick 0 1) demo_generated in
  storage (world_of r) = storage demo_generated /\
  Forall (fun e => operation e = None \/ operation e = Some OpStorageGet)
         (events_of r) /\
  (TabClick 0 1 <> DOMContentLoaded ->
   events_of r = [] /\ notes (world_of r) = notes demo_generated) /\
  (TabClick 0 1 = DOMContentLoaded ->
   notes (world_of r) = notes demo_generated
   \/ storage demo_generated = Some (notes (world_of r))).
Proof.
  apply (other_listeners_only_read demo_env (TabClick 0 1) demo_generated).
  reflexivity.
Defined.

(* ===================================================================== *)
(** * More on generateNotes *)
(* ===================================================================== *)

Ltac Forall_leaf :=
  cbn [app]; repeat (apply Forall_cons_2; [reflexivity|]); apply Forall_nil_2.

Ltac In_leaf := cbn [In app]; auto 12.

(** A store that has just been appended to is not empty. *)
Ltac absurd_empty :=
  match goal with
  | H : (length (_ ++ [_]) =? 0) = true |- _ =>
      exfalso; apply Nat.eqb_eq in H; rewrite length_app in H; simpl in H; lia
  end.

(** The world and the log a run of the [try] block leaves, by the way it
    ends. *)
Lemma generateNotes_try_ends env text w :
  wp (generateNotes_try env text)
     (fun r w1 evs =>
        (forall e, r = Throw e ->
           dom w1 = loading_dom (dom w) /\
           ((notes w1 = notes w /\ currentNoteIndex w1 = currentNoteIndex w
             /\ storage w1 = storage w
             /\ Forall (fun ev => writes_or_releases ev = false) evs)
            \/ (exists summary reflection,
                  notes w1 = notes w ++ [noteData env summary reflection text]
                  /\ currentNoteIndex w1 = (Z.of_nat (length (notes w1)) - 1)%Z
                  /\ In (StorageSet (notes w1)) evs
                  /\ In SummarizerDestroy evs))) /\
        (r = Normal tt ->
           exists summary reflection,
             notes w1 = notes w ++ [noteData env summary reflection text]
             /\ currentNoteIndex w1 = (Z.of_nat (length (notes w1)) - 1)%Z
             /\ dom w1 = mkDom (lit "none") (lit "flex") (lit "none") []
                               (errorMsg (dom w))
                               (render_tabs (notes w1) (currentNoteIndex w1))
                               (render_panes (notes w1) (currentNoteIndex w1))
             /\ In (StorageSet (notes w1)) evs
             /\ In SummarizerDestroy evs /\ In SessionDestroy evs)) w.
Proof.
  repeat wp_exec; try absurd_empty; wp_norm.
  all: split; [intros e0 Hr; try discriminate Hr | intros Hr; try discriminate Hr].
  all: try (split; [reflexivity|]).
  all: try (left; repeat (split; [reflexivity|]); Forall_leaf).
  all: try (right; eexists _, _; repeat (split; [reflexivity|]); split; In_leaf).
  all: eexists _, _; repeat (split; [reflexivity|]); repeat split; In_leaf.
Qed.

Lemma generateNotes_try_cases env w :
  trim (inputText (dom w)) <> [] ->
  (generation_succeeds env w /\
   generateNotes env w = generateNotes_try env (trim (inputText (dom w))) w)
  \/ (~ generation_succeeds env w /\
      exists error w1 evs,
        generateNotes_try env (trim (inputText (dom w))) w = (Throw error, w1, evs)
        /\ generateNotes env w
           = (Normal tt,
              set_dom (mkDom (lit "flex") (notesView (dom w1)) (lit "none")
                             (inputText (dom w1))
                             (error_html (lit "Error: " ++ message error))
                             (tabsContainer (dom w1)) (contentContainer (dom w1))) w1,
              evs ++ [ConsoleError (lit "Error generating notes:") error])).
Proof.
  intros Htext. rewrite (generateNotes_text env w Htext).
  unfold generation_succeeds, try_catch, outcome.
  destruct (generateNotes_try env (trim (inputText (dom w))) w)
    as [[[[]|error] w1] evs] eqn:Htry; simpl.
  - left. done.
  - right. split; [intros [_ H]; discriminate H|].
    exists error, w1, evs. split; [done|]. reflexivity.
Qed.

(** X10. A generation on a text that is not blank always ends with the
    loading view hidden and exactly one of the other two views shown.
    If the [try] block ran to its end, this is the notes view, the
    textarea is emptied and the error box is left as it was; otherwise it
    is the initial view, the textarea keeps the user's text, the error
    box is assigned the message of the error that the [try] block threw,
    and the tab strip is not rebuilt. *)
Theorem generateNotes_ends_in_one_view env w :
  trim (inputText (dom w)) <> [] ->
  let r := generateNotes env w in
  let d := dom (world_of r) in
  outcome r = Normal tt /\ loadingView d = lit "none" /\
  (generation_succeeds env w ->
   initialView d = lit "none" /\ notesView d = lit "flex" /\
   inputText d = [] /\ errorMsg d = errorMsg (dom w)) /\
  (~ generation_succeeds env w ->
   initialView d = lit "flex" /\ notesView d = lit "none" /\
   inputText d = inputText (dom w) /\
   tabsContainer d = tabsContainer (dom w) /\
   contentContainer d = contentContainer (dom w) /\
   exists error,
     outcome (generateNotes_try env (trim (inputText (dom w))) w) = Throw error /\
     errorMsg d = error_html (lit "Error: " ++ message error)).
Proof.
  intros Htext r d. subst d r.
  pose proof (generateNotes_try_ends env (trim (inputText (dom w))) w) as Hends.
  unfold wp in Hends.
  destruct (generateNotes_try_cases env w Htext)
    as [[Hok Hrun]|[Hfail (error & w1 & evs & Htry & Hrun)]]; rewrite Hrun.
  - destruct Hok as [_ Hok]. rewrite Hok.
    destruct Hends as [_ Hends]. rewrite Hok in Hends.
    destruct (Hends eq_refl) as (s & r' & _ & _ & Hdom & _).
    rewrite Hdom. wp_norm.
    split; [done|]. split; [done|].
    split; [intros _; done | intros Hno; destruct Hno; by split].
  - rewrite Htry in Hends. unfold outcome, world_of in *; simpl in *.
    destruct Hends as [Hends _]. destruct (Hends error eq_refl) as [Hdom _].
    rewrite Hdom. unfold loading_dom. wp_norm.
    split; [done|]. split; [done|]. split; [intros Hyes; by destruct Hfail|].
    intros _. do 5 (split; [done|]). exists error. by rewrite Htry.
Qed.

Lemma generateNotes_ends_in_one_view_witness :
  let r := generateNotes demo_env_summarize_fails demo_typed in
  let d := dom (world_of r) in
  outcome r = Normal tt /\ loadingView d = lit "none" /\
  (generation_succeeds demo_env_summarize_fails demo_typed ->
   initialView d = lit "none" /\ notesView d = lit "flex" /\
   inputText d = [] /\ errorMsg d = errorMsg (dom demo_typed)) /\
  (~ generation_succeeds demo_env_summarize_fails demo_typed ->
   initialView d = lit "flex" /\ notesView d = lit "none" /\
   inputText d = inputText (dom demo_typed) /\
   tabsContainer d = tabsContainer (dom demo_typed) /\
   contentContainer d = contentContainer (dom demo_typed) /\
   exists error,
     outcome (generateNotes_try demo_env_summarize_fails
                (trim (inputText (dom demo_typed))) demo_typed) = Throw error /\
     errorMsg d = error_html (lit "Error: " ++ message error)).
Proof.
  apply (generateNotes_ends_in_one_view demo_env_summarize_fails demo_typed).
  discriminate.
Defined.

(** X11. A generation is all or nothing for the store.  Either it leaves
    the array, the stored copy and [currentNoteIndex] exactly as they
    were, and then it has neither written to storage nor destroyed an
    instance, whatever it created; or it has appended exactly one note at
    the end, without touching the others, has called
    [chrome.storage.local.set] with the new array and has made the new
    note the active one, even if it then failed. *)
Theorem generateNotes_appends_or_changes_nothing env w :
  let r := generateNotes env w in
  let w' := world_of r in
  (notes w' = notes w /\ currentNoteIndex w' = currentNoteIndex w
   /\ storage w' = storage w
   /\ Forall (fun ev => writes_or_releases ev = false) (events_of r))
  \/ (exists summary reflection,
        notes w'
        = notes w ++ [noteData env summary reflection (trim (inputText (dom w)))]
        /\ currentNoteIndex w' = (Z.of_nat (length (notes w')) - 1)%Z
        /\ In (StorageSet (notes w')) (events_of r)).
Proof.
  intros r w'. subst w' r.
  destruct (trim (inputText (dom w))) as [|c text] eqn:Htext.
  { left. rewrite (generateNotes_blank env w Htext). repeat split. constructor. }
  assert (Hne : trim (inputText (dom w)) <> []) by (by rewrite Htext).
  pose proof (generateNotes_try_ends env (trim (inputText (dom w))) w) as Hends.
  unfold wp in Hends. rewrite <- Htext.
  destruct (generateNotes_try_cases env w Hne)
    as [[Hok Hrun]|[Hfail (error & w1 & evs & Htry & Hrun)]]; rewrite Hrun.
  - destruct Hok as [_ Hok]. destruct Hends as [_ Hends]. rewrite Hok in Hends.
    destruct (Hends eq_refl) as (s & r' & Hn & Hc & _ & Hin & _).
    right. by exists s, r'.
  - rewrite Htry in Hends. unfold outcome, world_of, events_of in *; simpl in *.
    destruct Hends as [Hends _].
    destruct (Hends error eq_refl) as [_ [(Hn & Hc & Hs & Hev)|(s & r' & Hn & Hc & Hin & _)]].
    + left. repeat (split; [done|]).
      apply Forall_app. split; [done|]. by apply Forall_singleton.
    + right. exists s, r'. repeat (split; [done|]).
      apply in_or_app. by left.
Qed.

(** X12. When the [try] block throws after the note was appended (which
    only a [destroy()] can cause), the note stays in the store as the
    active note and has been written to storage, and yet the user is shown
    the error on the initial view: the tab strip is not rebuilt and the
    textarea keeps its text. *)
Theorem failure_after_save_keeps_the_note env w error w1 evs :
  trim (inputText (dom w)) <> [] ->
  generateNotes_try env (trim (inputText (dom w))) w = (Throw error, w1, evs) ->
  notes w1 <> notes w ->
  let r := generateNotes env w in
  let w' := world_of r in
  (exists summary reflection,
     notes w'
     = notes w ++ [noteData env summary reflection (trim (inputText (dom w)))]) /\
  currentNoteIndex w' = (Z.of_nat (length (notes w')) - 1)%Z /\
  In (StorageSet (notes w')) (events_of r) /\
  In SummarizerDestroy (events_of r) /\
  errorMsg (dom w') = error_html (lit "Error: " ++ message error) /\
  initialView (dom w') = lit "flex" /\ notesView (dom w') = lit "none" /\
  loadingView (dom w') = lit "none" /\
  inputText (dom w') = inputText (dom w) /\
  tabsContainer (dom w') = tabsContainer (dom w) /\
  contentContainer (dom w') = contentContainer (dom w).
Proof.
  intros Htext Htry Hne r w'. subst w' r.
  pose proof (generateNotes_try_ends env (trim (inputText (dom w))) w) as Hends.
  unfold wp in Hends. rewrite Htry in Hends.
  unfold outcome, world_of, events_of in Hends; simpl in Hends.
  destruct Hends as [Hends _].
  destruct (Hends error eq_refl)
    as [Hdom [(Hn & _)|(s & r' & Hn & Hc & Hin & Hdestroy)]]; [done|].
  rewrite (generateNotes_text env w Htext). unfold try_catch. rewrite Htry.
  unfold outcome, world_of, events_of; simpl. rewrite Hdom.
  unfold loading_dom; wp_norm.
  split; [by exists s, r'|]. split; [done|].
  split; [apply in_or_app; by left|]. split; [apply in_or_app; by left|].
  repeat (split; [done|]). done.
Qed.

Lemma failure_after_save_keeps_the_note_witness :
  let r := generateNotes demo_env_destroy_fails demo_typed in
  let w' := world_of r in
  (exists summary reflection,
     notes w'
     = notes demo_typed
       ++ [noteData demo_env_destroy_fails summary reflection
                    (trim (inputText (dom demo_typed)))]) /\
  currentNoteIndex w' = (Z.of_nat (length (notes w')) - 1)%Z /\
  In (StorageSet (notes w')) (events_of r) /\
  In SummarizerDestroy (events_of r) /\
  errorMsg (dom w')
  = error_html (lit "Error: " ++ message (mkError (lit "destroy failed"))) /\
  initialView (dom w') = lit "flex" /\ notesView (dom w') = lit "none" /\
  loadingView (dom w') = lit "none" /\
  inputText (dom w') = inputText (dom demo_typed) /\
  tabsContainer (dom w') = tabsContainer (dom demo_typed) /\
  contentContainer (dom w') = contentContainer (dom demo_typed).
Proof.
  apply (failure_after_save_keeps_the_note demo_env_destroy_fails demo_typed
           (mkError (lit "destroy failed"))
           (world_of (generateNotes_try demo_env_destroy_fails
                        (trim (inputText (dom demo_typed))) demo_typed))
           (events_of (generateNotes_try demo_env_destroy_fails
                         (trim (inputText (dom demo_typed))) demo_typed))).
  - discriminate.
  - reflexivity.
  - discriminate.
Defined.

(** The calls of a run of the [try] block that reaches its end, and where
    the texts of the new note come from. *)
Lemma generateNotes_try_protocol env text w :
  wp (generateNotes_try env text)
     (fun r w1 evs =>
        r = Normal tt ->
        exists ai sf lf s session summary reflection save_log,
          window_ai env = Some ai /\
          summarizer ai = Some sf /\ languageModel ai = Some lf /\
          summarizer_create sf summarizer_config = Normal s /\
          summarize s text = Normal summary /\
          languageModel_create lf session_config = Normal session /\
          prompt session (reflectionPrompt summary) = Normal reflection /\
          notes w1 = notes w ++ [noteData env summary reflection text] /\
          evs = [ SummarizerCapabilities; LanguageModelCapabilities;
                  SummarizerCreate summarizer_config; Summarize text;
                  LanguageModelCreate session_config;
                  Prompt (reflectionPrompt summary);
                  StorageSet (notes w ++ [noteData env summary reflection text]) ]
                ++ save_log ++ [SummarizerDestroy; SessionDestroy] /\
          save_log = match storage_set_error env with
                     | Some e => [ConsoleError (lit "Error saving notes:") e]
                     | None => []
                     end) w.
Proof.
  repeat wp_exec; try absurd_empty; try discriminate; wp_norm.
  all: intros _; eexists _, _, _, _, _, _, _, _.
  all: repeat (split; [eassumption || reflexivity|]).
  all: reflexivity.
Qed.

(** X13. A generation that succeeds has followed the whole protocol once
    and in order: both capability queries, the summarizer created with the
    fixed configuration, the trimmed text summarized, the session created
    with the fixed system prompt, the reflection prompt built from that
    summary, the new array written, and both instances destroyed.  The
    note's Summary is what [summarize] answered for the trimmed text, its
    Reflection what [prompt] answered for the prompt built from that
    summary, and its [id] and [timestamp] are the clock's. *)
Theorem successful_generation_follows_the_protocol env w :
  generation_succeeds env w ->
  let text := trim (inputText (dom w)) in
  let r := generateNotes env w in
  exists ai sf lf s session summary reflection save_log,
    window_ai env = Some ai /\
    summarizer ai = Some sf /\ languageModel ai = Some lf /\
    summarizer_create sf summarizer_config = Normal s /\
    summarize s text = Normal summary /\
    languageModel_create lf session_config = Normal session /\
    prompt session (reflectionPrompt summary) = Normal reflection /\
    notes (world_of r)
    = notes w ++ [ mkNote (Date_now env) (Date_toISOString env)
                     [ mkSection (lit "Summary") summary;
                       mkSection (lit "Reflection") reflection;
                       mkSection (lit "Original Text") text ] ] /\
    events_of r
    = [ SummarizerCapabilities; LanguageModelCapabilities;
        SummarizerCreate summarizer_config; Summarize text;
        LanguageModelCreate session_config;
        Prompt (reflectionPrompt summary);
        StorageSet (notes (world_of r)) ]
      ++ save_log ++ [SummarizerDestroy; SessionDestroy] /\
    save_log = match storage_set_error env with
               | Some e => [ConsoleError (lit "Error saving notes:") e]
               | None => []
               end.
Proof.
  intros Hgen text r. subst r text.
  rewrite (generateNotes_succeeded env w Hgen).
  destruct Hgen as [_ Hok].
  destruct (generateNotes_try_protocol env (trim (inputText (dom w))) w Hok)
    as (ai & sf & lf & s & session & summary & reflection & save_log
        & H1 & H2 & H3 & H4 & H5 & H6 & H7 & Hn & Hev & Hlog).
  exists ai, sf, lf, s, session, summary, reflection, save_log.
  repeat (split; [done|]). split; [|done].
  rewrite Hev, Hn. reflexivity.
Qed.

Lemma successful_generation_follows_the_protocol_witness :
  let text := trim (inputText (dom demo_typed)) in
  let r := generateNotes demo_env_quota demo_typed in
  exists ai sf lf s session summary reflection save_log,
    window_ai demo_env_quota = Some ai /\
    summarizer ai = Some sf /\ languageModel ai = Some lf /\
    summarizer_create sf summarizer_config = Normal s /\
    summarize s text = Normal summary /\
    languageModel_create lf session_config = Normal session /\
    prompt session (reflectionPrompt summary) = Normal reflection /\
    notes (world_of r)
    = notes demo_typed
      ++ [ mkNote (Date_now demo_env_quota) (Date_toISOString demo_env_quota)
             [ mkSection (lit "Summary") summary;
               mkSection (lit "Reflection") reflection;
               mkSection (lit "Original Text") text ] ] /\
    events_of r
    = [ SummarizerCapabilities; LanguageModelCapabilities;
        SummarizerCreate summarizer_config; Summarize text;
        LanguageModelCreate session_config;
        Prompt (reflectionPrompt summary);
        StorageSet (notes (world_of r)) ]
      ++ save_log ++ [SummarizerDestroy; SessionDestroy] /\
    save_log = match storage_set_error demo_env_quota with
               | Some e => [ConsoleError (lit "Error saving notes:") e]
               | None => []
               end.
Proof.
  apply (successful_generation_follows_the_protocol demo_env_quota demo_typed).
  split; [discriminate | reflexivity].
Defined.

(* ===================================================================== *)
(** * The text a generation works on *)
(* ===================================================================== *)

Lemma trimStart_split s :
  exists ws, s = ws ++ trimStart s /\ blank ws.
Proof.
  induction s as [|c s (ws & Heq & Hws)]; [by exists []; split; [|constructor]|].
  simpl. destruct (isWhiteSpace c) eqn:Hc.
  - exists (c :: ws). split; [simpl; by f_equal|]. by constructor.
  - exists []. split; [done|constructor].
Qed.

Lemma trimStart_head s c : head (trimStart s) = Some c -> isWhiteSpace c = false.
Proof.
  induction s as [|c' s IH]; simpl; [done|].
  destruct (isWhiteSpace c') eqn:Hc; [done|]. simpl. by intros [= <-].
Qed.

Lemma trimStart_blank s : blank s -> trimStart s = [].
Proof.
  induction 1 as [|c s Hc _ IH]; simpl; [done|]. by rewrite Hc.
Qed.

Lemma blank_rev s : blank s -> blank (rev s).
Proof. unfold blank. rewrite !Forall_forall. intros H c Hc. apply H.
  apply list_elem_of_In. apply list_elem_of_In in Hc. by apply in_rev. Qed.

Lemma trimEnd_split s :
  exists ws, s = trimEnd s ++ ws /\ blank ws.
Proof.
  unfold trimEnd. destruct (trimStart_split (rev s)) as (ws & Heq & Hws).
  exists (rev ws). split; [|by apply blank_rev].
  apply (f_equal (@rev N)) in Heq.
  by rewrite rev_involutive, rev_app_distr in Heq.
Qed.

Lemma last_rev {A} (l : list A) : last (rev l) = head l.
Proof. destruct l as [|a l]; simpl; [done|]. apply last_snoc. Qed.

Lemma trimEnd_last s c : last (trimEnd s) = Some c -> isWhiteSpace c = false.
Proof. unfold trimEnd. rewrite last_rev. apply trimStart_head. Qed.

(** [trim] removes a blank prefix and a blank suffix, and what it leaves
    neither starts nor ends with a blank. *)
Lemma trim_split s :
  exists before after,
    s = before ++ trim s ++ after /\ blank before /\ blank after.
Proof.
  unfold trim. destruct (trimStart_split s) as (before & Hs & Hb).
  destruct (trimEnd_split (trimStart s)) as (after & Ht & Ha).
  exists before, after. split; [|done]. by rewrite <- Ht.
Qed.

Lemma trim_head s c : head (trim s) = Some c -> isWhiteSpace c = false.
Proof.
  unfold trim. intros Hh.
  destruct (trimEnd_split (trimStart s)) as (after & Ht & _).
  apply (trimStart_head s). rewrite Ht.
  destruct (trimEnd (trimStart s)); [done|]. exact Hh.
Qed.

Lemma trim_last s c : last (trim s) = Some c -> isWhiteSpace c = false.
Proof. apply trimEnd_last. Qed.

Lemma trim_nil_iff s : trim s = [] <-> blank s.
Proof.
  split.
  - intros Ht. destruct (trim_split s) as (before & after & Hs & Hb & Ha).
    rewrite Hs, Ht. apply Forall_app. split; [done|]. exact Ha.
  - intros Hs. unfold trim. by rewrite (trimStart_blank s Hs).
Qed.

(** A generation on a text that is not blank logs something. *)
Lemma generateNotes_logs env text w :
  wp (try_catch (generateNotes_try env text) generateNotes_catch)
     (fun _ _ evs => evs <> []) w.
Proof. repeat wp_exec; cbn [app]; discriminate. Qed.

(** X14. [generateNotes] stays silent towards the outside exactly on
    blank input: it makes no call and logs nothing if and only if every
    code unit of the textarea is white space or a line terminator (the
    empty text included). *)
Theorem generateNotes_is_silent_iff_blank env w :
  events_of (generateNotes env w) = [] <-> blank (inputText (dom w)).
Proof.
  rewrite <- trim_nil_iff. split.
  - intros Hev. destruct (trim (inputText (dom w))) as [|c text] eqn:Htext; [done|].
    assert (Hne : trim (inputText (dom w)) <> []) by (by rewrite Htext).
    rewrite (generateNotes_text env w Hne) in Hev.
    by destruct (generateNotes_logs env (trim (inputText (dom w))) w).
  - intros Htext. by rewrite (generateNotes_blank env w Htext).
Qed.

(** X15. The Original Text of a generated note is the textarea's text
    without the blanks around it: the text is that content between a
    blank prefix and a blank suffix, and the content itself is not empty
    and neither starts nor ends with a blank. *)
Theorem original_text_is_the_trimmed_input env w :
  generation_succeeds env w ->
  let w' := step env GenerateClick w in
  exists note summary reflection text before after,
    last (notes w') = Some note /\
    sections note = [ mkSection (lit "Summary") summary;
                      mkSection (lit "Reflection") reflection;
                      mkSection (lit "Original Text") text ] /\
    inputText (dom w) = before ++ text ++ after /\
    blank before /\ blank after /\ text <> [] /\
    (forall c, head text = Some c -> isWhiteSpace c = false) /\
    (forall c, last text = Some c -> isWhiteSpace c = false).
Proof.
  intros Hgen w'. subst w'. unfold step; simpl.
  rewrite (generateNotes_succeeded env w Hgen).
  destruct Hgen as [Hne Hok].
  destruct (generateNotes_try_Normal env (trim (inputText (dom w))) w Hok)
    as (summary & reflection & Hnotes & _).
  destruct (trim_split (inputText (dom w))) as (before & after & Hs & Hb & Ha).
  exists (noteData env summary reflection (trim (inputText (dom w)))),
    summary, reflection, (trim (inputText (dom w))), before, after.
  rewrite Hnotes, last_snoc.
  repeat (split; [done|]). split; [apply trim_head|apply trim_last].
Qed.

Lemma original_text_is_the_trimmed_input_witness :
  let w' := step demo_env GenerateClick demo_typed in
  exists note summary reflection text before after,
    last (notes w') = Some note /\
    sections note = [ mkSection (lit "Summary") summary;
                      mkSection (lit "Reflection") reflection;
                      mkSection (lit "Original Text") text ] /\
    inputText (dom demo_typed) = before ++ text ++ after /\
    blank before /\ blank after /\ text <> [] /\
    (forall c, head text = Some c -> isWhiteSpace c = false) /\
    (forall c, last text = Some c -> isWhiteSpace c = false).
Proof.
  apply (original_text_is_the_trimmed_input demo_env demo_typed).
  split; [discriminate | reflexivity].
Defined.

(* ===================================================================== *)
(** * More on deleteSection and the title editor *)
(* ===================================================================== *)

(** [deleteSection] on an index of the array: the array it leaves, and
    the DOM as [renderNotes] paints it after the write. *)
Lemma deleteSection_run env w noteIndex sectionIndex note :
  notes w !! noteIndex = Some note ->
  let ns' := notes_after_delete (notes w) note noteIndex sectionIndex in
  exists st save_log,
    deleteSection env noteIndex sectionIndex w
    = (Normal tt,
       world_of (renderNotes (set_storage st (set_notes ns' w))),
       StorageSet ns' :: save_log)
    /\ (st, save_log)
       = match storage_set_error env with
         | Some e => (storage w, [ConsoleError (lit "Error saving notes:") e])
         | None => (Some ns', [])
         end.
Proof.
  intros Hn ns'.
  assert (Hmod : (if length (sections note) =? 1
                  then modify (set_notes (splice noteIndex 1 (notes w)))
                  else modify (set_notes
                    (<[noteIndex := with_sections note
                         (splice sectionIndex 1 (sections note))]> (notes w)))) w
                 = (Normal tt, set_notes ns' w, [])).
  { unfold ns', notes_after_delete. by destruct (length (sections note) =? 1). }
  destruct (storage_set_error env) as [e|] eqn:He.
  - exists (storage w), [ConsoleError (lit "Error saving notes:") e].
    split; [|done]. unfold deleteSection.
    erewrite bind_Normal by reflexivity. rewrite Hn.
    rewrite (bind_Normal _ _ _ _ _ _ Hmod).
    rewrite (bind_Normal _ _ _ _ _ _ (saveNotes_rejected env _ e He)).
    destruct (renderNotes_dom_only (set_notes ns' w)) as [d Hd].
    replace (set_storage (storage w) (set_notes ns' w)) with (set_notes ns' w)
      by (by destruct w).
    change (notes (set_notes ns' w)) with ns'.
    rewrite Hd. reflexivity.
  - exists (Some ns'), []. split; [|done]. unfold deleteSection.
    erewrite bind_Normal by reflexivity. rewrite Hn.
    rewrite (bind_Normal _ _ _ _ _ _ Hmod).
    rewrite (bind_Normal _ _ _ _ _ _ (saveNotes_ok env _ He)).
    destruct (renderNotes_dom_only (set_storage (Some ns') (set_notes ns' w)))
      as [d Hd].
    change (notes (set_notes ns' w)) with ns'.
    rewrite Hd. reflexivity.
Qed.

Lemma splice_ge {A} (start : nat) (l : list A) :
  length l <= start -> splice start 1 l = l.
Proof.
  intros H. unfold splice. rewrite take_ge by done.
  rewrite drop_ge by lia. apply app_nil_r.
Qed.

(** X16. [deleteSection] called with indices that address nothing removes
    nothing.  With a [noteIndex] outside the array it throws the
    [TypeError] of [undefined.sections] before anything is changed or
    written.  With a [sectionIndex] outside a note that does not have
    exactly one section, it completes, leaves the array as it was, and
    still writes it to storage. *)
Theorem deleteSection_out_of_range_removes_nothing env w noteIndex sectionIndex :
  notes w !! noteIndex = None
  \/ (exists note, notes w !! noteIndex = Some note
                   /\ length (sections note) <> 1
                   /\ length (sections note) <= sectionIndex) ->
  let r := deleteSection env noteIndex sectionIndex w in
  notes (world_of r) = notes w /\
  currentNoteIndex (world_of r) = currentNoteIndex w /\
  (notes w !! noteIndex = None ->
   r = (Throw (TypeError_undefined_reading (lit "sections")), w, [])) /\
  (notes w !! noteIndex <> None ->
   outcome r = Normal tt /\
   exists save_log, events_of r = StorageSet (notes w) :: save_log).
Proof.
  intros [Hnone|(note & Hn & Hlen & Hj)] r; subst r.
  - rewrite (deleteSection_missing env w noteIndex sectionIndex Hnone).
    split; [done|]. split; [done|]. split; [done|]. intros H. by destruct H.
  - destruct (deleteSection_run env w noteIndex sectionIndex note Hn)
      as (st & save_log & -> & _).
    assert (Hsame : notes_after_delete (notes w) note noteIndex sectionIndex
                    = notes w).
    { unfold notes_after_delete.
      destruct (Nat.eqb_spec (length (sections note)) 1) as [|_]; [done|].
      rewrite (splice_ge _ _ Hj). apply list_insert_id.
      rewrite Hn. by destruct note. }
    rewrite Hsame.
    destruct (renderNotes_dom_only (set_storage st (set_notes (notes w) w)))
      as [d ->].
    unfold outcome, world_of, events_of; simpl.
    split; [done|]. split; [done|]. split; [intros H; congruence|].
    intros _. split; [done|]. by exists save_log.
Qed.

Lemma deleteSection_out_of_range_removes_nothing_witness :
  let r := deleteSection demo_env 0 7 demo_world in
  notes (world_of r) = notes demo_world /\
  currentNoteIndex (world_of r) = currentNoteIndex demo_world /\
  (notes demo_world !! 0 = None ->
   r = (Throw (TypeError_undefined_reading (lit "sections")), demo_world, [])) /\
  (notes demo_world !! 0 <> None ->
   outcome r = Normal tt /\
   exists save_log, events_of r = StorageSet (notes demo_world) :: save_log).
Proof.
  apply (deleteSection_out_of_range_removes_nothing demo_env demo_world 0 7).
  right. exists demo_note. split; [reflexivity|]. split; [discriminate|].
  simpl. lia.
Defined.

(** X17. Deleting the only section of the only note empties the store
    and brings the initial view back, with the textarea and the error box
    emptied; the empty array is what is written to storage.  The tab of
    the deleted note is not removed from the (now hidden) tab strip. *)
Theorem deleting_the_last_note_shows_the_initial_view env w note sectionIndex :
  notes w = [note] ->
  length (sections note) = 1 ->
  let r := deleteSection env 0 sectionIndex w in
  let w' := world_of r in
  outcome r = Normal tt /\ notes w' = [] /\
  (exists save_log, events_of r = StorageSet [] :: save_log) /\
  (storage_set_error env = None -> storage w' = Some []) /\
  dom w' = mkDom (lit "flex") (lit "none") (lit "none") [] []
                 (tabsContainer (dom w)) (contentContainer (dom w)).
Proof.
  intros Hns Hlen r w'. subst w' r.
  assert (Hn : notes w !! 0 = Some note) by (by rewrite Hns).
  destruct (deleteSection_run env w 0 sectionIndex note Hn)
    as (st & save_log & -> & Hst).
  assert (Hempty : notes_after_delete (notes w) note 0 sectionIndex = []).
  { unfold notes_after_delete. by rewrite Hlen, Hns. }
  rewrite Hempty in *. rewrite renderNotes_empty by done.
  unfold outcome, world_of, events_of; simpl.
  split; [done|]. split; [done|]. split; [by exists save_log|].
  split; [|done]. intros Hok. rewrite Hok in Hst. by injection Hst as -> _.
Qed.

Lemma deleting_the_last_note_shows_the_initial_view_witness :
  let r := deleteSection demo_env 0 0 demo_reached in
  let w' := world_of r in
  outcome r = Normal tt /\ notes w' = [] /\
  (exists save_log, events_of r = StorageSet [] :: save_log) /\
  (storage_set_error demo_env = None -> storage w' = Some []) /\
  dom w' = mkDom (lit "flex") (lit "none") (lit "none") [] []
                 (tabsContainer (dom demo_reached))
                 (contentContainer (dom demo_reached)).
Proof.
  apply (deleting_the_last_note_shows_the_initial_view demo_env demo_reached
           (mkNote 1700000000000%Z (lit "2023-11-14T22:13:20.000Z")
                   [mkSection (lit "Original Text") (lit "tea")]) 0).
  - reflexivity.
  - reflexivity.
Defined.

(** X18. [deleteSection] never adjusts [currentNoteIndex].  So when the
    last note of the store is the active one and a whole note is deleted
    while others remain, [currentNoteIndex] is left pointing past the end
    of the array, and the tab strip is rebuilt from the remaining notes
    without any highlighted tab or content section. *)
Theorem deleting_a_note_can_leave_no_tab_active
    env w noteIndex sectionIndex note :
  notes w !! noteIndex = Some note ->
  length (sections note) = 1 ->
  2 <= length (notes w) ->
  currentNoteIndex w = (Z.of_nat (length (notes w)) - 1)%Z ->
  let w' := step env (DeleteClick noteIndex sectionIndex) w in
  currentNoteIndex w' = Z.of_nat (length (notes w')) /\
  notes w' !! Z.to_nat (currentNoteIndex w') = None /\
  map tab_index (tabsContainer (dom w')) = section_indices (notes w') /\
  Forall (fun t => tab_active t = false) (tabsContainer (dom w')) /\
  Forall (fun p => pane_active p = false) (contentContainer (dom w')).
Proof.
  intros Hn Hlen Hmany Hcur w'. subst w'. unfold step; simpl.
  destruct (deleteSection_run env w noteIndex sectionIndex note Hn)
    as (st & save_log & -> & _).
  assert (Hns : notes_after_delete (notes w) note noteIndex sectionIndex
                = delete noteIndex (notes w)).
  { unfold notes_after_delete. by rewrite Hlen, splice_delete. }
  rewrite Hns.
  set (ns' := delete noteIndex (notes w)).
  assert (Hlen' : S (length ns') = length (notes w)).
  { unfold ns'. rewrite length_delete by eauto. lia. }
  assert (Hne : ns' <> []).
  { intros Heq. rewrite Heq in Hlen'. simpl in Hlen'. lia. }
  rewrite renderNotes_nonempty by done.
  unfold world_of; simpl.
  assert (Hc : currentNoteIndex w = Z.of_nat (length ns')) by lia.
  rewrite Hc.
  assert (Hoff : forall i j, i < length ns' ->
                   is_active (Z.of_nat (length ns')) i j = false).
  { intros i j Hi. unfold is_active.
    destruct (Z.eqb_spec (Z.of_nat i) (Z.of_nat (length ns'))); [lia|done]. }
  split; [done|]. split; [|split; [|split]].
  - rewrite Nat2Z.id. by apply lookup_ge_None.
  - apply render_tabs_indices.
  - apply Forall_forall. intros t Ht.
    apply elem_of_render_tabs in Ht as (i & n & j & s & Hi & _ & ->).
    simpl. apply Hoff. by eapply lookup_lt_Some.
  - apply Forall_forall. intros p Hp.
    apply elem_of_render_panes in Hp as (i & n & j & s & Hi & _ & ->).
    simpl. apply Hoff. by eapply lookup_lt_Some.
Qed.

Lemma deleting_a_note_can_leave_no_tab_active_witness :
  let w' := step demo_env (DeleteClick 1 0) demo_world in
  currentNoteIndex w' = Z.of_nat (length (notes w')) /\
  notes w' !! Z.to_nat (currentNoteIndex w') = None /\
  map tab_index (tabsContainer (dom w')) = section_indices (notes w') /\
  Forall (fun t => tab_active t = false) (tabsContainer (dom w')) /\
  Forall (fun p => pane_active p = false) (contentContainer (dom w')).
Proof.
  apply (deleting_a_note_can_leave_no_tab_active demo_env demo_world 1 0
           demo_single).
  - reflexivity.
  - reflexivity.
  - simpl; lia.
  - reflexivity.
Defined.

Lemma map_insert_same {A B} (f : A -> B) (l : list A) i x y :
  l !! i = Some y -> f x = f y -> map f (<[i:=x]> l) = map f l.
Proof.
  revert i. induction l as [|a l IH]; intros [|i] Hi Hf; simpl in *; try done.
  - injection Hi as ->. by rewrite Hf.
  - f_equal. by apply IH.
Qed.

(** The array and the log the title editor leaves, for indices that
    address a section. *)
Lemma titleSpan_blur_run env w noteIndex sectionIndex textContent note section :
  notes w !! noteIndex = Some note ->
  sections note !! sectionIndex = Some section ->
  let ns' := notes_after_rename (notes w) note section noteIndex sectionIndex
                                textContent in
  exists st save_log,
    titleSpan_blur env noteIndex sectionIndex textContent w
    = (Normal tt, set_storage st (set_notes ns' w), StorageSet ns' :: save_log)
    /\ (st, save_log)
       = match storage_set_error env with
         | Some e => (storage w, [ConsoleError (lit "Error saving notes:") e])
         | None => (Some ns', [])
         end.
Proof.
  intros Hn Hs ns'.
  destruct (storage_set_error env) as [e|] eqn:He.
  - exists (storage w), [ConsoleError (lit "Error saving notes:") e].
    split; [|done]. apply wp_run. repeat wp_exec. by destruct w.
  - exists (Some ns'), []. split; [|done]. apply wp_run. by repeat wp_exec.
Qed.

(** X19. The title editor changes one title and nothing else.  Whatever
    the indices, the title of every section other than the addressed one
    is as before, the array keeps its length, every note its [id],
    [timestamp] and number of sections, and every section its content;
    the DOM is not repainted (the content section keeps the old heading
    until the next render) and [currentNoteIndex] is kept.  With indices
    that address a section the editor completes, the title of that
    section is the text of the tab's span, and the array so changed is
    what [chrome.storage.local.set] is called with.  With indices that
    address no section it throws a [TypeError] and changes and writes
    nothing. *)
Theorem titleSpan_blur_changes_one_title_only
    env w noteIndex sectionIndex textContent :
  let r := titleSpan_blur env noteIndex sectionIndex textContent w in
  let w' := world_of r in
  dom w' = dom w /\ currentNoteIndex w' = currentNoteIndex w /\
  map id (notes w') = map id (notes w) /\
  map timestamp (notes w') = map timestamp (notes w) /\
  map (fun note => map content (sections note)) (notes w')
  = map (fun note => map content (sections note)) (notes w) /\
  (forall k l, k <> noteIndex \/ l <> sectionIndex ->
     title_at (notes w') k l = title_at (notes w) k l) /\
  (forall note section,
     notes w !! noteIndex = Some note ->
     sections note !! sectionIndex = Some section ->
     outcome r = Normal tt /\
     title_at (notes w') noteIndex sectionIndex = Some textContent /\
     In (StorageSet (notes w')) (events_of r)) /\
  ((forall note, notes w !! noteIndex = Some note ->
                 sections note !! sectionIndex = None) ->
   exists error, r = (Throw error, w, [])).
Proof.
  intros r w'. subst w' r.
  destruct (notes w !! noteIndex) as [note|] eqn:Hn.
  - destruct (sections note !! sectionIndex) as [section|] eqn:Hs.
    + destruct (titleSpan_blur_run env w noteIndex sectionIndex textContent
                  note section Hn Hs) as (st & save_log & -> & _).
      unfold outcome, world_of, events_of; simpl. unfold notes_after_rename.
      assert (Hmap : forall {B} (f : Note -> B),
                f (with_sections note
                     (<[sectionIndex := mkSection textContent (content section)]>
                        (sections note))) = f note ->
                map f (<[noteIndex := with_sections note
                     (<[sectionIndex := mkSection textContent (content section)]>
                        (sections note))]> (notes w)) = map f (notes w)).
      { intros B f Hf. by apply map_insert_same with (y := note). }
      apply lookup_lt_Some in Hn as Hi. apply lookup_lt_Some in Hs as Hj.
      split; [done|]. split; [done|].
      split; [by apply Hmap|]. split; [by apply Hmap|].
      split; [|split; [|split]].
      * apply Hmap. simpl. by apply map_insert_same with (y := section).
      * intros k l Hkl. unfold title_at.
        destruct (decide (k = noteIndex)) as [->|Hk].
        -- rewrite list_lookup_insert_eq by done. rewrite Hn. simpl.
           destruct Hkl as [Hk|Hl]; [done|].
           by rewrite list_lookup_insert_ne.
        -- by rewrite list_lookup_insert_ne.
      * intros note0 section0 [= <-] Hs0. split; [done|]. split; [|by left].
        unfold title_at. rewrite list_lookup_insert_eq by done. simpl.
        by rewrite list_lookup_insert_eq.
      * intros Hnone. by rewrite (Hnone note eq_refl) in Hs.
    + assert (Hrun : titleSpan_blur env noteIndex sectionIndex textContent w
                     = (Throw (TypeError_undefined_setting (lit "title")), w, [])).
      { apply wp_run. by repeat wp_exec. }
      rewrite Hrun. unfold outcome, world_of; simpl.
      do 5 (split; [done|]). split; [done|].
      split; [intros n s [= <-]; congruence|].
      intros _. by eexists.
  - assert (Hrun : titleSpan_blur env noteIndex sectionIndex textContent w
                   = (Throw (TypeError_undefined_reading (lit "sections")), w, [])).
    { apply wp_run. by repeat wp_exec. }
    rewrite Hrun. unfold outcome, world_of; simpl.
    do 5 (split; [done|]). split; [done|]. split; [done|].
    intros _. by eexists.
Qed.

Lemma titleSpan_blur_changes_one_title_only_witness :
  let r := titleSpan_blur demo_env 0 1 (lit "Thoughts") demo_world in
  outcome r = Normal tt /\
  title_at (notes (world_of r)) 0 1 = Some (lit "Thoughts") /\
  In (StorageSet (notes (world_of r))) (events_of r).
Proof.
  apply (proj1 (proj2 (proj2 (proj2 (proj2 (proj2 (proj2
           (titleSpan_blur_changes_one_title_only
              demo_env demo_world 0 1 (lit "Thoughts"))))))))
         demo_note (mkSection (lit "Reflection") (lit "Worth remembering."))
         eq_refl eq_refl).
Defined.

(* ===================================================================== *)
(** * The tab strip follows the store *)
(* ===================================================================== *)

Lemma lit_none_flex : lit "none" <> lit "flex".
Proof. intros H. vm_compute in H. discriminate H. Qed.

Lemma imap_ignore {A A' B} (g : nat -> B) (l : list A) (l' : list A') :
  length l = length l' ->
  imap (fun j _ => g j) l = imap (fun j _ => g j) l'.
Proof.
  revert g l'. induction l as [|a l IH]; intros g [|a' l'] Hlen;
    simpl in *; try done.
  f_equal. apply (IH (g ∘ S)). lia.
Qed.

Lemma indices_from_shape k (ns ns' : list Note) :
  map (fun n => length (sections n)) ns = map (fun n => length (sections n)) ns' ->
  concat (imap (fun i note =>
            imap (fun j (_ : NoteSection) => (k + i, j)) (sections note)) ns)
  = concat (imap (fun i note =>
            imap (fun j (_ : NoteSection) => (k + i, j)) (sections note)) ns').
Proof.
  revert k ns'. induction ns as [|n ns IH]; intros k [|n' ns'] Hshape;
    simpl in *; try done.
  injection Hshape as Hlen Hrest. f_equal.
  - by apply (imap_ignore (fun j => (k + 0, j))).
  - rewrite (imap_ext _ (fun i note =>
        imap (fun j (_ : NoteSection) => (S k + i, j)) (sections note)) ns).
    2:{ intros i x _. simpl. apply imap_ext. intros j s _. f_equal. lia. }
    rewrite (imap_ext _ (fun i note =>
        imap (fun j (_ : NoteSection) => (S k + i, j)) (sections note)) ns').
    2:{ intros i x _. simpl. apply imap_ext. intros j s _. f_equal. lia. }
    by apply IH.
Qed.

Lemma section_indices_shape ns ns' :
  map (fun n => length (sections n)) ns = map (fun n => length (sections n)) ns' ->
  section_indices ns = section_indices ns'.
Proof. apply (indices_from_shape 0). Qed.

Lemma section_indices_rename ns note section noteIndex sectionIndex textContent :
  ns !! noteIndex = Some note ->
  section_indices (notes_after_rename ns note section noteIndex sectionIndex
                                      textContent)
  = section_indices ns.
Proof.
  intros Hn. apply section_indices_shape. unfold notes_after_rename.
  apply map_insert_same with (y := note); [done|]. simpl. apply length_insert.
Qed.

Lemma tab_activate_indices noteIndex sectionIndex ts ts' :
  tab_activate noteIndex sectionIndex (map tab_deactivate ts) = Some ts' ->
  map tab_index ts' = map tab_index ts.
Proof.
  intros (first & _ & _ & Hall)%tab_activate_Some.
  apply list_eq. intros q. rewrite !list_lookup_fmap, Hall.
  by destruct (ts !! q).
Qed.

Lemma pane_activate_indices noteIndex sectionIndex ps ps' :
  pane_activate noteIndex sectionIndex (map pane_deactivate ps) = Some ps' ->
  map pane_index ps' = map pane_index ps.
Proof.
  intros (first & _ & _ & Hall)%pane_activate_Some.
  apply list_eq. intros q. rewrite !list_lookup_fmap, Hall.
  by destruct (ps !! q).
Qed.

Lemma tabs_in_sync_rendered w d :
  notes w <> [] ->
  tabsContainer d = render_tabs (notes w) (currentNoteIndex w) ->
  contentContainer d = render_panes (notes w) (currentNoteIndex w) ->
  tabs_in_sync (set_dom d w).
Proof.
  intros _ Ht Hp _. simpl. rewrite Ht, Hp.
  split; [apply render_tabs_indices | apply render_panes_indices].
Qed.

Lemma tabs_in_sync_hidden w :
  notesView (dom w) = lit "none" -> tabs_in_sync w.
Proof. intros H Hflex. rewrite H in Hflex. by destruct lit_none_flex. Qed.

Lemma tabs_in_sync_switchTab noteIndex sectionIndex w :
  tabs_in_sync w -> tabs_in_sync (world_of (switchTab noteIndex sectionIndex w)).
Proof.
  intros Hw.
  destruct (tab_activate noteIndex sectionIndex
              (map tab_deactivate (tabsContainer (dom w)))) as [ts'|] eqn:Hts.
  - destruct (pane_activate noteIndex sectionIndex
                (map pane_deactivate (contentContainer (dom w)))) as [ps'|] eqn:Hps.
    + rewrite (switchTab_found _ _ _ _ _ Hts Hps). intros Hflex. simpl in *.
      rewrite (tab_activate_indices _ _ _ _ Hts), (pane_activate_indices _ _ _ _ Hps).
      by apply Hw.
    + rewrite (switchTab_no_pane _ _ _ _ Hts Hps). intros Hflex. simpl in *.
      rewrite (tab_activate_indices _ _ _ _ Hts), pane_index_deactivate.
      by apply Hw.
  - rewrite (switchTab_no_tab _ _ _ Hts). intros Hflex. simpl in *.
    rewrite tab_index_deactivate. by apply Hw.
Qed.

Lemma tabs_in_sync_deleteSection env noteIndex sectionIndex w :
  tabs_in_sync w ->
  tabs_in_sync (world_of (deleteSection env noteIndex sectionIndex w)).
Proof.
  intros Hw. destruct (notes w !! noteIndex) as [note|] eqn:Hn.
  - destruct (deleteSection_run env w noteIndex sectionIndex note Hn)
      as (st & save_log & -> & _).
    set (ns' := notes_after_delete (notes w) note noteIndex sectionIndex).
    unfold world_of at 1; simpl.
    destruct ns' as [|n0 rest] eqn:Hns'.
    + rewrite renderNotes_empty by done. by apply tabs_in_sync_hidden.
    + rewrite renderNotes_nonempty by done. intros _. simpl.
      split; [apply render_tabs_indices | apply render_panes_indices].
  - by rewrite deleteSection_missing.
Qed.

Lemma tabs_in_sync_titleSpan_blur env noteIndex sectionIndex textContent w :
  tabs_in_sync w ->
  tabs_in_sync (world_of (titleSpan_blur env noteIndex sectionIndex textContent w)).
Proof.
  intros Hw. destruct (notes w !! noteIndex) as [note|] eqn:Hn.
  - destruct (sections note !! sectionIndex) as [section|] eqn:Hs.
    + destruct (titleSpan_blur_run env w noteIndex sectionIndex textContent
                  note section Hn Hs) as (st & save_log & -> & _).
      intros Hflex. simpl in *. rewrite section_indices_rename by done.
      by apply Hw.
    + assert (Hrun : titleSpan_blur env noteIndex sectionIndex textContent w
                     = (Throw (TypeError_undefined_setting (lit "title")), w, [])).
      { apply wp_run. by repeat wp_exec. }
      by rewrite Hrun.
  - assert (Hrun : titleSpan_blur env noteIndex sectionIndex textContent w
                   = (Throw (TypeError_undefined_reading (lit "sections")), w, [])).
    { apply wp_run. by repeat wp_exec. }
    by rewrite Hrun.
Qed.

Lemma tabs_in_sync_loadNotes env w :
  tabs_in_sync w -> tabs_in_sync (world_of (loadNotes env w)).
Proof.
  intros Hw.
  change (wp (loadNotes env) (fun _ w' _ => tabs_in_sync w') w).
  destruct (storage w) as [[|n ns]|] eqn:Hst;
    repeat wp_exec; try discriminate; try done;
    try (by apply tabs_in_sync_hidden).
  intros _. wp_norm.
  split; [apply render_tabs_indices | apply render_panes_indices].
Qed.

Lemma tabs_in_sync_generateNotes env w :
  tabs_in_sync w -> tabs_in_sync (world_of (generateNotes env w)).
Proof.
  intros Hw.
  destruct (trim (inputText (dom w))) as [|c text] eqn:Htext.
  { rewrite (generateNotes_blank env w Htext). exact Hw. }
  assert (Hne : trim (inputText (dom w)) <> []) by (by rewrite Htext).
  pose proof (generateNotes_try_ends env (trim (inputText (dom w))) w) as Hends.
  unfold wp in Hends.
  destruct (generateNotes_try_cases env w Hne)
    as [[Hok Hrun]|[Hfail (error & w1 & evs & Htry & Hrun)]]; rewrite Hrun.
  - destruct Hok as [_ Hok]. destruct Hends as [_ Hends]. rewrite Hok in Hends.
    destruct (Hends eq_refl) as (s & r' & _ & _ & Hdom & _).
    intros _. rewrite Hdom. simpl.
    split; [apply render_tabs_indices | apply render_panes_indices].
  - rewrite Htry in Hends. unfold outcome, world_of in *; simpl in *.
    destruct Hends as [Hends _]. destruct (Hends error eq_refl) as [Hdom _].
    apply tabs_in_sync_hidden. simpl. by rewrite Hdom.
Qed.

Lemma tabs_in_sync_step env ev w : tabs_in_sync w -> tabs_in_sync (step env ev w).
Proof.
  intros Hw. unfold step. destruct ev; simpl.
  - by apply tabs_in_sync_loadNotes.
  - exact Hw.
  - by apply tabs_in_sync_generateNotes.
  - exact Hw.
  - by apply tabs_in_sync_hidden.
  - by apply tabs_in_sync_titleSpan_blur.
  - by apply tabs_in_sync_deleteSection.
  - by apply tabs_in_sync_switchTab.
Qed.

Lemma reachable_tabs_in_sync html w :
  tabs_in_sync (fresh_popup html None) ->
  reachable html w -> tabs_in_sync w.
Proof.
  intros Hhtml. induction 1 as [|env ev w _ IH|w _ IH].
  - exact Hhtml.
  - by apply tabs_in_sync_step.
  - exact Hhtml.
Qed.

(** X20. Provided the document of the popup does not start with the
    notes view displayed over containers that are not empty, then in
    every world the popup can reach, whenever the notes view is
    displayed, the tab strip and the content area list exactly the
    sections of the store: one tab and one content section per section,
    in order, under the section's position. *)
Theorem visible_tabs_follow_the_store html w :
  (notesView html = lit "flex" ->
   tabsContainer html = [] /\ contentContainer html = []) ->
  reachable html w ->
  notesView (dom w) = lit "flex" ->
  map tab_index (tabsContainer (dom w)) = section_indices (notes w) /\
  map pane_index (contentContainer (dom w)) = section_indices (notes w) /\
  (forall noteIndex sectionIndex,
     (noteIndex, sectionIndex) ∈ map tab_index (tabsContainer (dom w)) <->
     exists note, notes w !! noteIndex = Some note
                  /\ sectionIndex < length (sections note)).
Proof.
  intros Hhtml Hreach Hflex.
  assert (Hsync : tabs_in_sync w).
  { apply (reachable_tabs_in_sync html); [|done].
    intros Hf. simpl in *. destruct (Hhtml Hf) as [-> ->]. done. }
  destruct (Hsync Hflex) as [Ht Hp].
  split; [done|]. split; [done|].
  intros i j. rewrite Ht. apply elem_of_section_indices.
Qed.

Lemma visible_tabs_follow_the_store_witness :
  map tab_index (tabsContainer (dom demo_generated))
  = section_indices (notes demo_generated) /\
  map pane_index (contentContainer (dom demo_generated))
  = section_indices (notes demo_generated) /\
  (forall noteIndex sectionIndex,
     (noteIndex, sectionIndex) ∈ map tab_index (tabsContainer (dom demo_generated))
     <-> exists note, notes demo_generated !! noteIndex = Some note
                      /\ sectionIndex < length (sections note)).
Proof.
  apply (visible_tabs_follow_the_store demo_html demo_generated).
  - intros _. split; reflexivity.
  - unfold demo_generated, demo_typed. do 2 apply reachable_step.
    apply reachable_install.
  - reflexivity.
Defined.

(** X21. Under the same proviso, while the notes view is displayed the
    listeners of every tab on screen run to their end: deleting the tab's
    section, renaming it and switching to it never throw. *)
Theorem listeners_of_visible_tabs_never_throw html w env t textContent :
  (notesView html = lit "flex" ->
   tabsContainer html = [] /\ contentContainer html = []) ->
  reachable html w ->
  notesView (dom w) = lit "flex" ->
  t ∈ tabsContainer (dom w) ->
  outcome (listener env (DeleteClick (tab_noteIndex t) (tab_sectionIndex t)) w)
  = Normal tt /\
  outcome (listener env (TitleBlur (tab_noteIndex t) (tab_sectionIndex t)
                                   textContent) w)
  = Normal tt /\
  outcome (listener env (TabClick (tab_noteIndex t) (tab_sectionIndex t)) w)
  = Normal tt.
Proof.
  intros Hhtml Hreach Hflex Ht.
  assert (Hsync : tabs_in_sync w).
  { apply (reachable_tabs_in_sync html); [|done].
    intros Hf. simpl in *. destruct (Hhtml Hf) as [-> ->]. done. }
  destruct (Hsync Hflex) as [Htabs Hpanes].
  assert (Hin : tab_index t ∈ map tab_index (tabsContainer (dom w))).
  { apply list_elem_of_fmap. by exists t. }
  assert (Hsec : tab_index t ∈ section_indices (notes w)) by (by rewrite <- Htabs).
  apply elem_of_section_indices in Hsec as (note & Hn & Hj).
  destruct (lookup_lt_is_Some_2 _ _ Hj) as [section Hs].
  simpl. split; [|split].
  - by destruct (deleteSection_run env w _ (tab_sectionIndex t) note Hn)
      as (st & save_log & -> & _).
  - by destruct (titleSpan_blur_run env w _ _ textContent note section Hn Hs)
      as (st & save_log & -> & _).
  - destruct (tab_activate (tab_noteIndex t) (tab_sectionIndex t)
                (map tab_deactivate (tabsContainer (dom w)))) as [ts'|] eqn:Hts.
    2:{ apply tab_activate_None in Hts.
        apply (proj1 (Forall_tab_index_deactivate
                 (fun x => x <> (tab_noteIndex t, tab_sectionIndex t)) _)) in Hts.
        rewrite Forall_forall in Hts. by destruct (Hts t Ht). }
    destruct (pane_activate (tab_noteIndex t) (tab_sectionIndex t)
                (map pane_deactivate (contentContainer (dom w)))) as [ps'|] eqn:Hps.
    2:{ apply pane_activate_None in Hps.
        apply (proj1 (Forall_pane_index_deactivate
                 (fun x => x <> (tab_noteIndex t, tab_sectionIndex t)) _)) in Hps.
        rewrite Forall_forall in Hps.
        assert (Hp : tab_index t ∈ map pane_index (contentContainer (dom w))).
        { rewrite Hpanes, <- Htabs. exact Hin. }
        apply list_elem_of_fmap in Hp as (p & Heq & Hp).
        destruct (Hps p Hp). by rewrite <- Heq. }
    by rewrite (switchTab_found _ _ _ _ _ Hts Hps).
Qed.

Lemma listeners_of_visible_tabs_never_throw_witness :
  let t := mkTab false 0 2 (lit "Original Text") in
  outcome (listener demo_env (DeleteClick (tab_noteIndex t) (tab_sectionIndex t))
                    demo_generated)
  = Normal tt /\
  outcome (listener demo_env (TitleBlur (tab_noteIndex t) (tab_sectionIndex t)
                                        (lit "Source")) demo_generated)
  = Normal tt /\
  outcome (listener demo_env (TabClick (tab_noteIndex t) (tab_sectionIndex t))
                    demo_generated)
  = Normal tt.
Proof.
  apply (listeners_of_visible_tabs_never_throw demo_html demo_generated demo_env
           (mkTab false 0 2 (lit "Original Text")) (lit "Source")).
  - intros _. split; reflexivity.
  - unfold demo_generated, demo_typed. do 2 apply reachable_step.
    apply reachable_install.
  - reflexivity.
  - apply (bool_decide_unpack _). vm_compute. reflexivity.
Defined.
